(** * softmax.cc: CPU registration of softmax / log_softmax

    A shallow embedding of [src/operator/nn/softmax.cc]: the MKLDNN
    dispatcher [SoftmaxComputeExCPU], the storage-type inference
    [SoftmaxStorageType], and the four operator registrations
    ([softmax], [_backward_softmax], [log_softmax],
    [_backward_log_softmax]).

    Calls into the rest of the library are recorded as events of a trace,
    so that the path a call takes can be read off its result.  What the
    file only names (the kernels of [softmax-inl.h], [FallBackCompute],
    [ElemwiseGradUseOut]) is modelled separately and marked as such;
    [SupportMKLDNN], [storage_type_assign], [cpu::kDevMask] and the build
    flag [MXNET_USE_MKLDNN] are parameters. *)

From Stdlib Require Import List ZArith Bool String Lia PeanoNat.
From Stdlib Require Import Reals Lra.
From Stdlib Require Import Sorted.
From Stdlib Require Floats.
Import ListNotations.

Set Implicit Arguments.

(* ================================================================= *)
(** ** Types the file receives from the framework *)

(** [OpReqType]: the write discipline of one output. *)
Inductive OpReqType : Type :=
| kNullOp
| kWriteTo
| kWriteInplace
| kAddTo.

(** [DispatchMode]: which kind of compute function the executor calls. *)
Inductive DispatchMode : Type :=
| kUndefined
| kFCompute
| kFComputeFallback
| kFComputeEx
| kVariable.

(** [SoftmaxParam]: the parsed configuration; [axis] is a C [int]. *)
Record SoftmaxParam : Type := mkSoftmaxParam { axis : Z }.

(** [nnvm::NodeAttrs], reduced to the field the file reads:
    [attrs.parsed], holding a [SoftmaxParam]. *)
Record NodeAttrs : Type := mkNodeAttrs { parsed : SoftmaxParam }.

(** [OpContext], reduced to the field the file reads. *)
Record OpContext : Type := mkOpContext { is_train : bool }.

(** The memory behind an array: a chunk of the storage manager, or the
    dense copy a layout conversion made of another one. *)
Inductive Buffer : Type :=
| Chunk (id : nat)
| DefaultCopy (src : Buffer).

(** [NDArray] metadata.  [IsMKLDNNData] tells whether the array is
    currently held in the accelerated backend's own layout. *)
Record NDArray : Type := mkNDArray {
  nd_shape : list nat;
  nd_dtype : Z;
  storage_type : Z;
  IsMKLDNNData : bool;
  nd_buffer : Buffer
}.

Definition ndim (a : NDArray) : nat := List.length (nd_shape a).

(** Template tags of [softmax-inl.h] that the file instantiates kernels
    with. *)
Inductive FwdOp : Type := softmax_fwd | log_softmax_fwd.
Inductive BwdOp : Type := softmax_bwd | log_softmax_bwd.
Inductive ReduceOp : Type := mshadow_op_mul | mshadow_op_left.

(** The [FCompute] functions the file names. *)
Inductive FComputeFn : Type :=
| SoftmaxCompute_cpu (OP : FwdOp)
| SoftmaxGradCompute_cpu (OP1 : ReduceOp) (OP2 : BwdOp).

(* ================================================================= *)
(** ** Events: the calls a compute function makes *)

Inductive Event : Type :=
| EvOpCheckInit (backward : bool) (num_checks : nat)
                (inputs outputs : list NDArray)
| EvMKLDNNSoftmaxForward (attrs : NodeAttrs) (ctx : OpContext)
                         (in_data : NDArray) (req : OpReqType)
                         (out_data : NDArray)
| EvOpCheckRun (fn : FComputeFn) (attrs : NodeAttrs) (ctx : OpContext)
               (inputs : list NDArray) (req : list OpReqType)
               (outputs : list NDArray)
| EvLayoutConversion (src : NDArray)
| EvFCompute (fn : FComputeFn) (attrs : NodeAttrs) (ctx : OpContext)
             (in_arrays : list NDArray) (req : list OpReqType)
             (out_arrays : list NDArray).

(** The two states of the dispatcher. *)
Inductive BackendDecision : Type := Accelerated | Generic.

Definition is_accelerated_call (e : Event) : bool :=
  match e with
  | EvMKLDNNSoftmaxForward _ _ _ _ _ => true
  | _ => false
  end.

(** The path a trace took: accelerated when the MKLDNN primitive was
    run, generic otherwise. *)
Definition selected (tr : list Event) : BackendDecision :=
  if existsb is_accelerated_call tr then Accelerated else Generic.

(* ================================================================= *)
(** ** The fallback *)

(** The array a layout conversion yields: same logical tensor, default
    layout, in a buffer of its own. *)
Definition Reorder2Default (a : NDArray) : NDArray :=
  {| nd_shape := nd_shape a;
     nd_dtype := nd_dtype a;
     storage_type := storage_type a;
     IsMKLDNNData := false;
     nd_buffer := DefaultCopy (nd_buffer a) |}.

Definition to_default (a : NDArray) : NDArray :=
  if IsMKLDNNData a then Reorder2Default a else a.

(** Modelled from the spec: [FallBackCompute] (declared in
    [mkldnn/mkldnn_base-inl.h], not part of this file).  Every input
    currently held in the accelerated layout is converted to the standard
    dense layout by a copy, and only then is the generic kernel [fn]
    invoked, on the dense arrays. *)
Definition FallBackCompute (fn : FComputeFn) (attrs : NodeAttrs)
    (ctx : OpContext) (inputs : list NDArray) (req : list OpReqType)
    (outputs : list NDArray) : list Event :=
  map EvLayoutConversion (filter IsMKLDNNData inputs)
  ++ [EvFCompute fn attrs ctx (map to_default inputs) req outputs].

(* ================================================================= *)
(** ** SoftmaxComputeExCPU *)

Section Dispatcher.

(** [SupportMKLDNN]: the accelerated backend's capability query. *)
Variable SupportMKLDNN : NDArray -> bool.

(** Lines 36-53.  [None] stands for indexing a vector out of its bounds
    ([inputs[0]], [req[0]], [outputs[0]]). *)
Definition SoftmaxComputeExCPU (attrs : NodeAttrs) (ctx : OpContext)
    (inputs : list NDArray) (req : list OpReqType)
    (outputs : list NDArray) : option (list Event) :=
  let param := parsed attrs in
  match nth_error inputs 0 with
  | None => None
  | Some in0 =>
    if SupportMKLDNN in0 && negb (is_train ctx) && (axis param >=? 0)%Z
    then
      match nth_error req 0, nth_error outputs 0 with
      | Some req0, Some out0 =>
        let fn := SoftmaxCompute_cpu softmax_fwd in
        Some [ EvOpCheckInit false (List.length outputs) inputs outputs;
               EvMKLDNNSoftmaxForward attrs ctx in0 req0 out0;
               EvOpCheckRun fn attrs ctx inputs req outputs ]
      | _, _ => None
      end
    else
      Some (FallBackCompute (SoftmaxCompute_cpu softmax_fwd) attrs ctx
                            inputs req outputs)
  end.

(** The dispatcher run after whatever earlier calls left in the log:
    the log is extended, never read. *)
Definition run_call (log : list Event) (attrs : NodeAttrs) (ctx : OpContext)
    (inputs : list NDArray) (req : list OpReqType)
    (outputs : list NDArray) : option (list Event * BackendDecision) :=
  match SoftmaxComputeExCPU attrs ctx inputs req outputs with
  | Some tr => Some (log ++ tr, selected tr)
  | None => None
  end.

End Dispatcher.

(** The configuration with its axis replaced. *)
Definition with_axis (attrs : NodeAttrs) (a : Z) : NodeAttrs :=
  {| parsed := {| axis := a |} |}.

(* ================================================================= *)
(** ** SoftmaxStorageType *)

(** A failed [CHECK_EQ(lhs, rhs)]: the two values that differ. *)
Inductive CheckError : Type :=
| CheckEqFailed (lhs rhs : nat).

Inductive Outcome (A : Type) : Type :=
| Returned (a : A)
| Thrown (e : CheckError).
Arguments Returned {A} a.
Arguments Thrown {A} e.

(** What the function reaches through its pointer arguments. *)
Record InferState : Type := mkInferState {
  dispatch_mode : DispatchMode;
  in_attrs : list Z;
  out_attrs : list Z
}.

Section StorageInference.

(** Build flag and device constant, both defined outside this file. *)
Variable MXNET_USE_MKLDNN : Z.
Variable cpu_kDevMask : Z.

(** [storage_type_assign(out_attrs, target, dispatch_mode, wanted)]:
    defined outside this file; it updates [*out_attrs] and
    [*dispatch_mode] and returns a [bool], or throws. *)
Variable storage_type_assign :
  list Z -> Z -> DispatchMode -> DispatchMode ->
  (list Z * DispatchMode) * Outcome bool.

(** Lines 64-71. *)
Definition wanted_mode (dev_mask : Z) : DispatchMode :=
  if (MXNET_USE_MKLDNN =? 1)%Z then
    if (dev_mask =? cpu_kDevMask)%Z then kFComputeEx else kFCompute
  else kFCompute.

(** Lines 56-74.  The state after the call and what the call returned;
    a failed check throws from the state reached so far. *)
Definition SoftmaxStorageType (attrs : NodeAttrs) (dev_mask : Z)
    (st : InferState) : InferState * Outcome bool :=
  if negb (List.length (in_attrs st) =? 1) then
    (st, Thrown (CheckEqFailed (List.length (in_attrs st)) 1))
  else if negb (List.length (out_attrs st) =? 1) then
    (st, Thrown (CheckEqFailed (List.length (out_attrs st)) 1))
  else
    let target := nth 0 (in_attrs st) 0%Z in
    let '((outs, mode), r) :=
      storage_type_assign (out_attrs st) target (dispatch_mode st)
                          (wanted_mode dev_mask) in
    ({| dispatch_mode := mode; in_attrs := in_attrs st; out_attrs := outs |},
     r).

End StorageInference.

(* ================================================================= *)
(** ** The operator registrations (lines 76-141) *)

(** The two registration macros the file uses. *)
Inductive RegisterMacro : Type :=
| MXNET_OPERATOR_REGISTER_UNARY
| MXNET_OPERATOR_REGISTER_BINARY.

(** Modelled from the spec: the input count each macro declares (the
    macros are defined in [elemwise_unary_op.h] and
    [elemwise_binary_op.h]): one input for a forward operator, two (the
    gradient and the saved output) for a backward one. *)
Definition macro_num_inputs (m : RegisterMacro) : nat :=
  match m with
  | MXNET_OPERATOR_REGISTER_UNARY => 1
  | MXNET_OPERATOR_REGISTER_BINARY => 2
  end.

(** The gradient functors the file attaches; their argument is the name
    of the backward operator. *)
Inductive GradFunctor : Type :=
| ElemwiseGradUseOut (backward_op : string).

(** Which function an attribute holds. *)
Inductive ComputeExFn : Type := FnSoftmaxComputeExCPU.
Inductive InferStorageFn : Type := FnSoftmaxStorageType.

Record Registration : Type := mkRegistration {
  reg_macro : RegisterMacro;
  reg_name : string;
  FCompute_cpu : FComputeFn;
  FComputeEx_cpu : option ComputeExFn;
  FInferStorageType : option InferStorageFn;
  FGradient : option GradFunctor
}.

Section Registry.

Variable MXNET_USE_MKLDNN : Z.

(** Lines 76-109. *)
Definition op_softmax : Registration :=
  {| reg_macro := MXNET_OPERATOR_REGISTER_UNARY;
     reg_name := "softmax";
     FCompute_cpu := SoftmaxCompute_cpu softmax_fwd;
     FComputeEx_cpu :=
       if (MXNET_USE_MKLDNN =? 1)%Z then Some FnSoftmaxComputeExCPU else None;
     FInferStorageType := Some FnSoftmaxStorageType;
     FGradient := Some (ElemwiseGradUseOut "_backward_softmax") |}.

(** Lines 111-114. *)
Definition op_backward_softmax : Registration :=
  {| reg_macro := MXNET_OPERATOR_REGISTER_BINARY;
     reg_name := "_backward_softmax";
     FCompute_cpu := SoftmaxGradCompute_cpu mshadow_op_mul softmax_bwd;
     FComputeEx_cpu := None;
     FInferStorageType := None;
     FGradient := None |}.

(** Lines 116-136. *)
Definition op_log_softmax : Registration :=
  {| reg_macro := MXNET_OPERATOR_REGISTER_UNARY;
     reg_name := "log_softmax";
     FCompute_cpu := SoftmaxCompute_cpu log_softmax_fwd;
     FComputeEx_cpu := None;
     FInferStorageType := None;
     FGradient := Some (ElemwiseGradUseOut "_backward_log_softmax") |}.

(** Lines 138-141. *)
Definition op_backward_log_softmax : Registration :=
  {| reg_macro := MXNET_OPERATOR_REGISTER_BINARY;
     reg_name := "_backward_log_softmax";
     FCompute_cpu := SoftmaxGradCompute_cpu mshadow_op_left log_softmax_bwd;
     FComputeEx_cpu := None;
     FInferStorageType := None;
     FGradient := None |}.

Definition registry : list Registration :=
  [op_softmax; op_backward_softmax; op_log_softmax; op_backward_log_softmax].

Definition find_op (name : string) : option Registration :=
  find (fun r => String.eqb (reg_name r) name) registry.

End Registry.

(* ================================================================= *)
(** ** Gradient linkage *)

(** An output of a graph node: [nnvm::NodeEntry]. *)
Record NodeEntry : Type := mkNodeEntry { entry_node : nat; entry_index : nat }.

Record Node : Type := mkNode {
  node_id : nat;
  node_op : string;
  node_inputs : list NodeEntry;
  node_num_outputs : nat
}.

(** The entries of the outputs of a node. *)
Definition outputs_of (n : Node) : list NodeEntry :=
  map (fun i => {| entry_node := node_id n; entry_index := i |})
      (seq 0 (node_num_outputs n)).

(** Modelled from the spec: what [ElemwiseGradUseOut] (defined in
    [elemwise_op_common.h]) declares.  The backward node of [n] is an
    instance of the named backward operator whose inputs are the output
    gradients followed by the forward node's own outputs; the forward
    node's inputs are not among them. *)
Definition apply_FGradient (g : GradFunctor) (fresh_id : nat) (n : Node)
    (ograds : list NodeEntry) : Node :=
  match g with
  | ElemwiseGradUseOut backward_op =>
    {| node_id := fresh_id;
       node_op := backward_op;
       node_inputs := ograds ++ outputs_of n;
       node_num_outputs := List.length (node_inputs n) |}
  end.

(** Whether a backward node reads a given entry, hence whether the graph
    has to keep that tensor for the backward pass. *)
Definition entry_eqb (a b : NodeEntry) : bool :=
  Nat.eqb (entry_node a) (entry_node b)
  && Nat.eqb (entry_index a) (entry_index b).

Definition reads_entry (bwd : Node) (e : NodeEntry) : bool :=
  existsb (entry_eqb e) (node_inputs bwd).

(* ================================================================= *)
(** ** The kernels the registrations instantiate *)

(** The element type a kernel template is instantiated at, with the
    arithmetic it uses. *)
Class DTypeOps (DType : Type) : Type := {
  d0 : DType;
  dadd : DType -> DType -> DType;
  dsub : DType -> DType -> DType;
  dmul : DType -> DType -> DType;
  ddiv : DType -> DType -> DType;
  dexp : DType -> DType;
  dlog : DType -> DType;
  dlt : DType -> DType -> bool
}.

(** A dense tensor view: a shape and the elements in row-major order. *)
Record Tensor (DType : Type) : Type := mkTensor {
  shape : list nat;
  dptr : list DType
}.

(** Modelled from the spec: axis normalisation.  A negative axis counts
    from the last dimension ([axis + rank]); the result must satisfy
    [0 <= axis < rank], otherwise the call fails (ShapeError). *)
Definition CheckAxis (ax : Z) (rank : nat) : option nat :=
  let a := if (ax <? 0)%Z then (ax + Z.of_nat rank)%Z else ax in
  if (0 <=? a)%Z && (a <? Z.of_nat rank)%Z then Some (Z.to_nat a) else None.

Definition Size (shp : list nat) : nat := fold_right Nat.mul 1 shp.

(** Length of the axis, and the distance between two neighbours along
    it. *)
Definition axis_len (shp : list nat) (ax : nat) : nat := nth ax shp 1.
Definition axis_stride (shp : list nat) (ax : nat) : nat :=
  Size (skipn (S ax) shp).

(** The flat index where the slice along [ax] through element [k]
    starts, and the flat indices of that slice. *)
Definition lane_base (shp : list nat) (ax k : nat) : nat :=
  k - ((k / axis_stride shp ax) mod axis_len shp ax) * axis_stride shp ax.

Definition lane_indices (shp : list nat) (ax k : nat) : list nat :=
  map (fun j => lane_base shp ax k + j * axis_stride shp ax)
      (seq 0 (axis_len shp ax)).

Section Kernels.

Context {DType : Type} {ops : DTypeOps DType}.

(** Modelled from the spec: the elementwise steps the template tags
    stand for (they are defined in [softmax-inl.h] and [mshadow_op.h]).
    Forward: [a] is the shifted input [x - max], [b] the sum of
    exponentials.  Backward: [sum] is the reduction along the axis. *)
Definition Map_fwd (OP : FwdOp) (a b : DType) : DType :=
  match OP with
  | softmax_fwd => ddiv (dexp a) b
  | log_softmax_fwd => dsub a (dlog b)
  end.

Definition Map_bwd (OP : BwdOp) (ograd out sum : DType) : DType :=
  match OP with
  | softmax_bwd => dmul out (dsub ograd sum)
  | log_softmax_bwd => dsub ograd (dmul (dexp out) sum)
  end.

Definition Map_reduce (OP : ReduceOp) (a b : DType) : DType :=
  match OP with
  | mshadow_op_mul => dmul a b
  | mshadow_op_left => a
  end.

(** The elements of the slice along [ax] through element [k]. *)
Definition lane (shp : list nat) (ax : nat) (data : list DType) (k : nat)
    : list DType :=
  map (fun i => nth i data d0) (lane_indices shp ax k).

(** Modelled from the spec (4.1, pass 1): the maximum along the axis. *)
Definition lane_max (l : list DType) : DType :=
  match l with
  | [] => d0
  | x :: rest => fold_left (fun m v => if dlt m v then v else m) rest x
  end.

(** Modelled from the spec (4.1, pass 2): the sum of [exp (x - max)]
    along the axis. *)
Definition lane_sum_exp (l : list DType) (mmax : DType) : DType :=
  fold_left (fun s v => dadd s (dexp (dsub v mmax))) l d0.

(** Modelled from the spec (4.2): the forward kernel.  Every element is
    shifted by the maximum of its slice and combined with the slice's
    sum of exponentials. *)
Definition Softmax (OP : FwdOp) (shp : list nat) (ax : nat)
    (data : list DType) : list DType :=
  map (fun k =>
         let l := lane shp ax data k in
         let mmax := lane_max l in
         let sum := lane_sum_exp l mmax in
         Map_fwd OP (dsub (nth k data d0) mmax) sum)
      (seq 0 (List.length data)).

(** Modelled from the spec (4.2): the reduction of the backward kernel,
    accumulated along the axis over the gradient and the saved output. *)
Definition lane_reduce (OP1 : ReduceOp) (lg lo : list DType) : DType :=
  fold_left (fun s p => dadd s (Map_reduce OP1 (fst p) (snd p)))
            (combine lg lo) d0.

(** Modelled from the spec (4.2): the backward kernel: one reduction
    along the axis, then the elementwise combine. *)
Definition SoftmaxGrad (OP1 : ReduceOp) (OP2 : BwdOp) (shp : list nat)
    (ax : nat) (out ograd : list DType) : list DType :=
  map (fun k =>
         let sum := lane_reduce OP1 (lane shp ax ograd k)
                                    (lane shp ax out k) in
         Map_bwd OP2 (nth k ograd d0) (nth k out d0) sum)
      (seq 0 (List.length ograd)).

(** Modelled from the spec: [SoftmaxCompute<cpu, OP>] on its single
    input; [None] is the ShapeError of an axis out of range. *)
Definition SoftmaxCompute (OP : FwdOp) (attrs : NodeAttrs)
    (x : Tensor DType) : option (Tensor DType) :=
  match CheckAxis (axis (parsed attrs)) (List.length (shape x)) with
  | None => None
  | Some ax =>
    Some {| shape := shape x; dptr := Softmax OP (shape x) ax (dptr x) |}
  end.

(** Modelled from the spec: [SoftmaxGradCompute<cpu, OP1, OP2>] on its
    two inputs, the gradient [dy] first and the saved output [y] second;
    [None] is the ShapeError of mismatching shapes or of an axis out of
    range. *)
Definition SoftmaxGradCompute (OP1 : ReduceOp) (OP2 : BwdOp)
    (attrs : NodeAttrs) (dy y : Tensor DType) : option (Tensor DType) :=
  if list_eq_dec Nat.eq_dec (shape dy) (shape y) then
    match CheckAxis (axis (parsed attrs)) (List.length (shape dy)) with
    | None => None
    | Some ax =>
      Some {| shape := shape dy;
              dptr := SoftmaxGrad OP1 OP2 (shape dy) ax (dptr y) (dptr dy) |}
    end
  else None.

(** Running a registered [FCompute] on tensors. *)
Definition run_FCompute (fn : FComputeFn) (attrs : NodeAttrs)
    (inputs : list (Tensor DType)) : option (Tensor DType) :=
  match fn, inputs with
  | SoftmaxCompute_cpu OP, [x] => SoftmaxCompute OP attrs x
  | SoftmaxGradCompute_cpu OP1 OP2, [dy; y] =>
    SoftmaxGradCompute OP1 OP2 attrs dy y
  | _, _ => None
  end.

(** The sums the spec's formulas are written with. *)
Definition sum_list (l : list DType) : DType := fold_left dadd l d0.


Definition weighted_sum_along (shp : list nat) (ax : nat)
    (dy y : list DType) (k : nat) : DType :=
  sum_list (map (fun p => dmul (fst p) (snd p))
                (combine (lane shp ax dy k) (lane shp ax y k))).

End Kernels.

(** Real arithmetic as an element type. *)
Definition Rltb (a b : R) : bool := if Rlt_dec a b then true else false.

#[export] Instance R_ops : DTypeOps R :=
  {| d0 := 0%R; dadd := Rplus; dsub := Rminus; dmul := Rmult;
     ddiv := Rdiv; dexp := exp; dlog := ln; dlt := Rltb |}.

(** Index arithmetic run on tensors that hold their own flat indices. *)
#[export] Instance index_ops : DTypeOps nat :=
  {| d0 := 0; dadd := Nat.add; dsub := Nat.sub; dmul := Nat.mul;
     ddiv := Nat.div; dexp := fun n => n; dlog := fun n => n;
     dlt := Nat.ltb |}.

(* ================================================================= *)
(** ** Statements of the specification, and concrete calls *)

(** The dispatch property as the specification words it: a training
    call always goes the generic way, an inference call on a supported
    layout always the accelerated way. *)
Definition dispatch_property_as_stated : Prop :=
  forall (SupportMKLDNN : NDArray -> bool) attrs ctx in0 ins req outputs tr,
    SoftmaxComputeExCPU SupportMKLDNN attrs ctx (in0 :: ins) req outputs
      = Some tr ->
    (is_train ctx = true -> selected tr = Generic)
    /\ (is_train ctx = false -> SupportMKLDNN in0 = true ->
        selected tr = Accelerated).

(** Normalisation before dispatch, as the specification words it: for a
    negative configured axis the dispatcher decides as it does for
    [axis + rank]. *)
Definition axis_normalized_before_dispatch : Prop :=
  forall (SupportMKLDNN : NDArray -> bool) attrs ctx in0 ins req outputs,
    (axis (parsed attrs) < 0)%Z ->
    (0 <= axis (parsed attrs) + Z.of_nat (ndim in0))%Z ->
    option_map selected
      (SoftmaxComputeExCPU SupportMKLDNN attrs ctx (in0 :: ins) req outputs)
    = option_map selected
      (SoftmaxComputeExCPU SupportMKLDNN
         (with_axis attrs (axis (parsed attrs) + Z.of_nat (ndim in0)))
         ctx (in0 :: ins) req outputs).

(** A [storage_type_assign] that writes its target and the wanted mode. *)
Definition assign_always (outs : list Z) (target : Z)
    (mode wanted : DispatchMode) : (list Z * DispatchMode) * Outcome bool :=
  ((map (fun _ => target) outs, wanted), Returned true).

(** A backend that accepts every layout. *)
Definition supports_all (a : NDArray) : bool := true.

(** A backend that accepts arrays of default storage only. *)
Definition supports_default_storage (a : NDArray) : bool :=
  (storage_type a =? 0)%Z.

(** A 2x3 array in the default layout, one in the accelerated layout,
    and an output array. *)
Definition x_dense : NDArray :=
  {| nd_shape := [2; 3]; nd_dtype := 0; storage_type := 0;
     IsMKLDNNData := false; nd_buffer := Chunk 0 |}.

Definition x_mkldnn : NDArray :=
  {| nd_shape := [2; 3]; nd_dtype := 0; storage_type := 0;
     IsMKLDNNData := true; nd_buffer := Chunk 1 |}.

Definition y_out : NDArray :=
  {| nd_shape := [2; 3]; nd_dtype := 0; storage_type := 0;
     IsMKLDNNData := false; nd_buffer := Chunk 2 |}.

(** The default configuration (last axis) and an explicit one. *)
Definition attrs_last_axis : NodeAttrs := {| parsed := {| axis := -1 |} |}.
Definition attrs_axis1 : NodeAttrs := {| parsed := {| axis := 1 |} |}.

Definition inference : OpContext := {| is_train := false |}.
Definition training : OpContext := {| is_train := true |}.

(** A forward node [softmax(x)] whose input is output 0 of node 7. *)
Definition softmax_node : Node :=
  {| node_id := 8; node_op := "softmax";
     node_inputs := [ {| entry_node := 7; entry_index := 0 |} ];
     node_num_outputs := 1 |}.

(** A 2x1 tensor and two 2x2 tensors of reals. *)
Definition column : Tensor R := {| shape := [2; 1]; dptr := [3%R; 5%R] |}.
Definition grad_2x2 : Tensor R :=
  {| shape := [2; 2]; dptr := [1%R; 2%R; 3%R; 4%R] |}.
Definition out_2x2 : Tensor R :=
  {| shape := [2; 2]; dptr := [5%R; 6%R; 7%R; 8%R] |}.

(** The gradient linkage of a forward registration: its gradient
    functor names a registered two-input backward operator, whose node
    reads the output gradient and the forward node's output and no
    input of the forward node. *)
Definition gradient_uses_output (MXNET_USE_MKLDNN : Z) (fwd : Registration)
    (backward_op : string) : Prop :=
  FGradient fwd = Some (ElemwiseGradUseOut backward_op)
  /\ (exists bwd, find_op MXNET_USE_MKLDNN backward_op = Some bwd
                  /\ macro_num_inputs (reg_macro bwd) = 2)
  /\ forall fresh_id n ograd,
       node_num_outputs n = 1 ->
       let b := apply_FGradient (ElemwiseGradUseOut backward_op)
                                fresh_id n [ograd] in
       node_op b = backward_op
       /\ node_inputs b
          = [ograd; {| entry_node := node_id n; entry_index := 0 |}]
       /\ forall x, In x (node_inputs n) ->
                    entry_node x <> node_id n -> x <> ograd ->
                    reads_entry b x = false.

(* ================================================================= *)
(** ** Further vocabulary: traces, tensors, the operator's description *)

(** Events of the fallback: a layout conversion or the generic kernel. *)
Definition is_fallback_event (e : Event) : bool :=
  match e with
  | EvLayoutConversion _ => true
  | EvFCompute _ _ _ _ _ _ => true
  | _ => false
  end.

(** Events that compute a softmax: the MKLDNN primitive or the generic
    kernel. *)
Definition is_compute_event (e : Event) : bool :=
  match e with
  | EvMKLDNNSoftmaxForward _ _ _ _ _ => true
  | EvFCompute _ _ _ _ _ _ => true
  | _ => false
  end.

(** A tensor whose buffer holds as many elements as its shape says. *)
Definition well_formed (DType : Type) (t : Tensor DType) : Prop :=
  List.length (dptr t) = Size (shape t).


(** The tensor of the description's example (lines 88-89). *)
Definition ones_2x3 : Tensor R :=
  {| shape := [2; 3]; dptr := [1; 1; 1; 1; 1; 1]%R |}.

Definition attrs_axis0 : NodeAttrs := {| parsed := {| axis := 0 |} |}.

(* ================================================================= *)
(** ** Slices along an axis, by coordinates *)

(** In row-major order the flat index [k] of a tensor of shape [shp] is
    [outer * (M * sa) + a * sa + inner], with [M] the length of axis
    [ax], [sa] its stride, [a < M] the coordinate along the axis and
    [inner < sa]: [k / (M * sa)] holds the coordinates before the axis
    and [k mod sa] those after it.  Two indices lie in one slice along
    the axis when they agree on both, that is, on every coordinate
    except the one along the axis. *)
Definition same_slice (shp : list nat) (ax i j : nat) : Prop :=
  i / (axis_len shp ax * axis_stride shp ax)
  = j / (axis_len shp ax * axis_stride shp ax)
  /\ i mod axis_stride shp ax = j mod axis_stride shp ax.

(** [idx] lists, in increasing order and without repetition, exactly
    the indices of the tensor that lie in the slice through [i]. *)
Definition slice_of (shp : list nat) (ax i : nat) (idx : list nat) : Prop :=
  StronglySorted lt idx
  /\ forall j, In j idx <-> j < Size shp /\ same_slice shp ax i j.

(* ================================================================= *)
(** ** Floating-point elements *)

Module Float64.

Import Floats.

Definition zero : float := 0%float.
Definition pos_infinity : float := infinity.






End Float64.


(* ================================================================= *)
(** * Properties *)

(** ** The dispatcher *)

Section DispatcherFacts.

Variable SupportMKLDNN : NDArray -> bool.

Lemma no_accelerated_call_in_conversions (l : list NDArray) :
  existsb is_accelerated_call (map EvLayoutConversion l) = false.
Proof.
  induction l as [|a l IH]; simpl; [reflexivity | exact IH].
Qed.

Lemma selected_FallBackCompute fn attrs ctx inputs req outputs :
  selected (FallBackCompute fn attrs ctx inputs req outputs) = Generic.
Proof.
  unfold selected, FallBackCompute.
  rewrite existsb_app, no_accelerated_call_in_conversions.
  reflexivity.
Qed.

Lemma to_default_dense (a : NDArray) : IsMKLDNNData (to_default a) = false.
Proof.
  unfold to_default.
  destruct (IsMKLDNNData a) eqn:E; [reflexivity | exact E].
Qed.

Lemma fallback_inputs_dense (inputs : list NDArray) :
  Forall (fun a => IsMKLDNNData a = false) (map to_default inputs).
Proof.
  apply Forall_forall. intros a Ha.
  apply in_map_iff in Ha. destruct Ha as [b [<- _]].
  apply to_default_dense.
Qed.

(** The guard of line 44, as a proposition. *)
Lemma guard_true_iff (in0 : NDArray) (ctx : OpContext) (attrs : NodeAttrs) :
  SupportMKLDNN in0 && negb (is_train ctx) && (axis (parsed attrs) >=? 0)%Z
    = true
  <-> SupportMKLDNN in0 = true /\ is_train ctx = false
      /\ (0 <= axis (parsed attrs))%Z.
Proof.
  rewrite !andb_true_iff, negb_true_iff, Z.geb_le. tauto.
Qed.

(** The two shapes a successful call's trace can have. *)
Lemma SoftmaxComputeExCPU_cases attrs ctx in0 ins req0 reqs out0 outs :
  let inputs := in0 :: ins in
  let req := req0 :: reqs in
  let outputs := out0 :: outs in
  (SupportMKLDNN in0 && negb (is_train ctx) && (axis (parsed attrs) >=? 0)%Z
     = true
   /\ SoftmaxComputeExCPU SupportMKLDNN attrs ctx inputs req outputs
      = Some [ EvOpCheckInit false (List.length outputs) inputs outputs;
               EvMKLDNNSoftmaxForward attrs ctx in0 req0 out0;
               EvOpCheckRun (SoftmaxCompute_cpu softmax_fwd) attrs ctx
                            inputs req outputs ])
  \/ (SupportMKLDNN in0 && negb (is_train ctx)
        && (axis (parsed attrs) >=? 0)%Z = false
      /\ SoftmaxComputeExCPU SupportMKLDNN attrs ctx inputs req outputs
         = Some (FallBackCompute (SoftmaxCompute_cpu softmax_fwd) attrs ctx
                                 inputs req outputs)).
Proof.
  intros inputs req outputs. unfold SoftmaxComputeExCPU. simpl.
  destruct (SupportMKLDNN in0 && negb (is_train ctx)
            && (axis (parsed attrs) >=? 0)%Z) eqn:G.
  - left. split; reflexivity.
  - right. split; reflexivity.
Qed.

End DispatcherFacts.

Section DispatchClaims.

Variable SupportMKLDNN : NDArray -> bool.

(** C1.  Every forward call with at least one input, request and output
    yields a trace.  The trace takes the accelerated path exactly when
    the backend supports the first input, the call is not a training
    call and the configured axis is non-negative; it then runs the
    MKLDNN primitive on [inputs[0]], [req[0]], [outputs[0]].  In every
    other case the trace is the fallback's: one conversion for each
    input held in the accelerated layout, then the generic softmax
    kernel, called on inputs that are all in the default layout. *)
Theorem SoftmaxComputeExCPU_dispatch :
  forall attrs ctx in0 ins req0 reqs out0 outs,
  exists tr,
    SoftmaxComputeExCPU SupportMKLDNN attrs ctx
                        (in0 :: ins) (req0 :: reqs) (out0 :: outs) = Some tr
    /\ (selected tr = Accelerated
        <-> SupportMKLDNN in0 = true /\ is_train ctx = false
            /\ (0 <= axis (parsed attrs))%Z)
    /\ (selected tr = Accelerated ->
        In (EvMKLDNNSoftmaxForward attrs ctx in0 req0 out0) tr)
    /\ (selected tr = Generic ->
        tr = map EvLayoutConversion (filter IsMKLDNNData (in0 :: ins))
             ++ [EvFCompute (SoftmaxCompute_cpu softmax_fwd) attrs ctx
                            (map to_default (in0 :: ins))
                            (req0 :: reqs) (out0 :: outs)]
        /\ Forall (fun a => IsMKLDNNData a = false)
                  (map to_default (in0 :: ins))).
Proof.
  intros attrs ctx in0 ins req0 reqs out0 outs.
  destruct (SoftmaxComputeExCPU_cases SupportMKLDNN attrs ctx in0 ins
              req0 reqs out0 outs) as [[G E] | [G E]];
    cbv zeta in E; rewrite E; eexists; (split; [reflexivity|]).
  - (* accelerated *)
    apply guard_true_iff in G.
    repeat split; try tauto.
    + intros _. simpl. tauto.
    + discriminate.
    + discriminate.
  - (* generic *)
    assert (NG : ~ (SupportMKLDNN in0 = true /\ is_train ctx = false
                    /\ (0 <= axis (parsed attrs))%Z)).
    { intros H. apply guard_true_iff in H. congruence. }
    rewrite selected_FallBackCompute.
    repeat split; try discriminate; try tauto.
    apply fallback_inputs_dense.
Qed.

(** C2, amended.  For a fixed configuration: a training call selects
    the generic path whatever the layout support; an inference call on a
    supported layout selects the accelerated path when the configured
    axis is non-negative, and the generic path when it is negative. *)
Theorem dispatch_property :
  forall attrs ctx in0 ins req0 reqs out0 outs,
  exists tr,
    SoftmaxComputeExCPU SupportMKLDNN attrs ctx
                        (in0 :: ins) (req0 :: reqs) (out0 :: outs) = Some tr
    /\ (is_train ctx = true -> selected tr = Generic)
    /\ (is_train ctx = false -> SupportMKLDNN in0 = true ->
        (0 <= axis (parsed attrs))%Z -> selected tr = Accelerated)
    /\ (is_train ctx = false -> SupportMKLDNN in0 = true ->
        (axis (parsed attrs) < 0)%Z -> selected tr = Generic).
Proof.
  intros attrs ctx in0 ins req0 reqs out0 outs.
  destruct (SoftmaxComputeExCPU_cases SupportMKLDNN attrs ctx in0 ins
              req0 reqs out0 outs) as [[G E] | [G E]];
    cbv zeta in E; rewrite E; eexists; (split; [reflexivity|]).
  - apply guard_true_iff in G. destruct G as [_ [T A]].
    split; [intros T'; congruence|].
    split; [reflexivity|].
    intros _ _ Hneg. lia.
  - rewrite selected_FallBackCompute.
    split; [reflexivity|].
    split; [|reflexivity].
    intros T S A. exfalso.
    assert (H : SupportMKLDNN in0 && negb (is_train ctx)
                && (axis (parsed attrs) >=? 0)%Z = true)
      by (apply guard_true_iff; auto).
    congruence.
Qed.

(** C6, amended.  A negative configured axis reaches the dispatcher as
    it was configured: the guard compares that value with 0, so the call
    falls back to the generic kernel whatever the layout support and the
    execution mode, and the fallback is handed the configuration
    unchanged. *)
Theorem negative_axis_reaches_dispatch :
  forall attrs ctx in0 ins req outputs,
    (axis (parsed attrs) < 0)%Z ->
    SoftmaxComputeExCPU SupportMKLDNN attrs ctx (in0 :: ins) req outputs
      = Some (FallBackCompute (SoftmaxCompute_cpu softmax_fwd) attrs ctx
                              (in0 :: ins) req outputs)
    /\ option_map selected
         (SoftmaxComputeExCPU SupportMKLDNN attrs ctx (in0 :: ins) req outputs)
       = Some Generic.
Proof.
  intros attrs ctx in0 ins req outputs Hneg.
  assert (E : SoftmaxComputeExCPU SupportMKLDNN attrs ctx (in0 :: ins)
                                  req outputs
              = Some (FallBackCompute (SoftmaxCompute_cpu softmax_fwd)
                                      attrs ctx (in0 :: ins) req outputs)).
  { unfold SoftmaxComputeExCPU. simpl.
    replace (axis (parsed attrs) >=? 0)%Z with false
      by (symmetry; rewrite Z.geb_leb; apply Z.leb_gt; exact Hneg).
    rewrite andb_false_r. reflexivity. }
  split; [exact E|].
  rewrite E. simpl. rewrite selected_FallBackCompute. reflexivity.
Qed.

(** C7.  The decision is a function of the configured axis, the
    training flag and the backend's answer for the first input: two
    calls that agree on these three select the same path, whatever the
    requests, the outputs, the other inputs and the log of earlier calls
    are; and a call only appends to the log. *)
Theorem decision_reproducible :
  forall log1 log2 attrs1 attrs2 ctx1 ctx2 in1 ins1 in2 ins2
         req1 reqs1 req2 reqs2 out1 outs1 out2 outs2,
    axis (parsed attrs1) = axis (parsed attrs2) ->
    is_train ctx1 = is_train ctx2 ->
    SupportMKLDNN in1 = SupportMKLDNN in2 ->
    exists tr1 tr2 d,
      run_call SupportMKLDNN log1 attrs1 ctx1 (in1 :: ins1) (req1 :: reqs1)
               (out1 :: outs1) = Some (log1 ++ tr1, d)
      /\ run_call SupportMKLDNN log2 attrs2 ctx2 (in2 :: ins2) (req2 :: reqs2)
                  (out2 :: outs2) = Some (log2 ++ tr2, d)
      /\ SoftmaxComputeExCPU SupportMKLDNN attrs1 ctx1 (in1 :: ins1)
                             (req1 :: reqs1) (out1 :: outs1) = Some tr1
      /\ SoftmaxComputeExCPU SupportMKLDNN attrs2 ctx2 (in2 :: ins2)
                             (req2 :: reqs2) (out2 :: outs2) = Some tr2.
Proof.
  intros log1 log2 attrs1 attrs2 ctx1 ctx2 in1 ins1 in2 ins2
         req1 reqs1 req2 reqs2 out1 outs1 out2 outs2 Hax Htr Hsup.
  unfold run_call.
  destruct (SoftmaxComputeExCPU_cases SupportMKLDNN attrs1 ctx1 in1 ins1
              req1 reqs1 out1 outs1) as [[G1 E1] | [G1 E1]];
  destruct (SoftmaxComputeExCPU_cases SupportMKLDNN attrs2 ctx2 in2 ins2
              req2 reqs2 out2 outs2) as [[G2 E2] | [G2 E2]];
    cbv zeta in E1, E2; rewrite E1, E2;
    rewrite Hax, Htr, Hsup in G1; try congruence.
  - do 2 eexists. exists Accelerated. repeat split; reflexivity.
  - do 2 eexists. exists Generic.
    rewrite !selected_FallBackCompute. repeat split; reflexivity.
Qed.

End DispatchClaims.

(** C2, as stated, fails: with the default configuration (axis -1) an
    inference call on a supported layout takes the generic path. *)
Lemma dispatch_property_fails_for_negative_axis :
  is_train inference = false
  /\ supports_all x_dense = true
  /\ option_map selected
       (SoftmaxComputeExCPU supports_all attrs_last_axis inference
                            [x_dense] [kWriteTo] [y_out])
     = Some Generic
  /\ ~ dispatch_property_as_stated.
Proof.
  split; [reflexivity|]. split; [reflexivity|]. split; [reflexivity|].
  intros H.
  destruct (H supports_all attrs_last_axis inference x_dense []
              [kWriteTo] [y_out] _ eq_refl) as [_ Hacc].
  specialize (Hacc eq_refl eq_refl). discriminate Hacc.
Qed.

(** C6, as stated, fails: configured with axis -1 on a rank-2 input the
    dispatcher selects the generic path, while for the normalised axis 1
    it selects the accelerated one: the value it reads is -1. *)
Lemma axis_not_normalized_before_dispatch :
  option_map selected
    (SoftmaxComputeExCPU supports_all attrs_last_axis inference
                         [x_dense] [kWriteTo] [y_out]) = Some Generic
  /\ option_map selected
       (SoftmaxComputeExCPU supports_all
          (with_axis attrs_last_axis (-1 + Z.of_nat (ndim x_dense)))
          inference [x_dense] [kWriteTo] [y_out]) = Some Accelerated
  /\ ~ axis_normalized_before_dispatch.
Proof.
  split; [reflexivity|]. split; [reflexivity|].
  intros H.
  assert (A : (axis (parsed attrs_last_axis) < 0)%Z) by (simpl; lia).
  assert (B : (0 <= axis (parsed attrs_last_axis)
                    + Z.of_nat (ndim x_dense))%Z) by (simpl; lia).
  pose proof (H supports_all attrs_last_axis inference x_dense []
                [kWriteTo] [y_out] A B) as E.
  discriminate E.
Qed.

Lemma negative_axis_reaches_dispatch_witness :
  (axis (parsed attrs_last_axis) < 0)%Z
  /\ option_map selected
       (SoftmaxComputeExCPU supports_all attrs_last_axis inference
                            [x_mkldnn] [kWriteTo] [y_out]) = Some Generic.
Proof.
  assert (A : (axis (parsed attrs_last_axis) < 0)%Z) by (simpl; lia).
  split; [exact A|].
  exact (proj2 (negative_axis_reaches_dispatch supports_all attrs_last_axis
                  inference x_mkldnn [] [kWriteTo] [y_out] A)).
Defined.

Lemma decision_reproducible_witness :
  exists tr1 tr2 d,
    run_call supports_default_storage [] attrs_axis1 inference
             [x_dense] [kWriteTo] [y_out] = Some ([] ++ tr1, d)
    /\ run_call supports_default_storage
                [EvLayoutConversion x_mkldnn] attrs_axis1 inference
                [x_mkldnn; x_dense] [kAddTo] [x_dense]
       = Some ([EvLayoutConversion x_mkldnn] ++ tr2, d)
    /\ SoftmaxComputeExCPU supports_default_storage attrs_axis1 inference
                           [x_dense] [kWriteTo] [y_out] = Some tr1
    /\ SoftmaxComputeExCPU supports_default_storage attrs_axis1 inference
                           [x_mkldnn; x_dense] [kAddTo] [x_dense] = Some tr2.
Proof.
  apply (decision_reproducible supports_default_storage
           [] [EvLayoutConversion x_mkldnn] attrs_axis1 attrs_axis1
           inference inference x_dense [] x_mkldnn [x_dense]
           kWriteTo [] kAddTo [] y_out [] x_dense []);
    reflexivity.
Defined.

(** ** Gradient linkage *)

Lemma entry_eqb_eq (a b : NodeEntry) : entry_eqb a b = true <-> a = b.
Proof.
  unfold entry_eqb. rewrite andb_true_iff, !Nat.eqb_eq.
  destruct a as [an ai], b as [bn bi]; simpl. split.
  - intros [-> ->]. reflexivity.
  - intros E. injection E. auto.
Qed.

Lemma reads_entry_false (b : Node) (x : NodeEntry) :
  ~ In x (node_inputs b) -> reads_entry b x = false.
Proof.
  intros H. unfold reads_entry.
  destruct (existsb (entry_eqb x) (node_inputs b)) eqn:E; [|reflexivity].
  apply existsb_exists in E. destruct E as [y [Hy Exy]].
  apply entry_eqb_eq in Exy. subst y. contradiction.
Qed.

Lemma use_out_linkage (MXNET_USE_MKLDNN : Z) (fwd : Registration)
    (backward_op : string) (bwd : Registration) :
  FGradient fwd = Some (ElemwiseGradUseOut backward_op) ->
  find_op MXNET_USE_MKLDNN backward_op = Some bwd ->
  macro_num_inputs (reg_macro bwd) = 2 ->
  gradient_uses_output MXNET_USE_MKLDNN fwd backward_op.
Proof.
  intros HG HF HN. split; [exact HG|]. split; [exists bwd; auto|].
  intros fresh_id n ograd Hout b. subst b. simpl.
  unfold outputs_of. rewrite Hout. simpl.
  repeat split.
  intros x Hx Hnode Hgrad. apply reads_entry_false. simpl.
  intros [E | [E | []]].
  - apply Hgrad. symmetry. exact E.
  - apply Hnode. rewrite <- E. reflexivity.
Qed.

(** C3.  Both forward registrations attach [ElemwiseGradUseOut]: the
    backward operator it names is registered with two inputs, and the
    backward node built for a forward node reads the output gradient
    and the forward node's own output [y]; an input [x] of the forward
    node is not read.  The output, not the input, is what has to be
    kept for the backward pass. *)
Theorem gradient_linkage_uses_output :
  forall MXNET_USE_MKLDNN,
    gradient_uses_output MXNET_USE_MKLDNN (op_softmax MXNET_USE_MKLDNN)
                         "_backward_softmax"
    /\ gradient_uses_output MXNET_USE_MKLDNN op_log_softmax
                            "_backward_log_softmax"
    /\ FCompute_cpu op_backward_softmax
       = SoftmaxGradCompute_cpu mshadow_op_mul softmax_bwd
    /\ FCompute_cpu op_backward_log_softmax
       = SoftmaxGradCompute_cpu mshadow_op_left log_softmax_bwd.
Proof.
  intros M. split; [|split; [|split; reflexivity]].
  - apply use_out_linkage with (bwd := op_backward_softmax);
      reflexivity.
  - apply use_out_linkage with (bwd := op_backward_log_softmax);
      reflexivity.
Qed.

(** ** The kernels *)

Lemma nth_map_seq (A : Type) (f : nat -> A) (n i : nat) (d : A) :
  i < n -> nth i (map f (seq 0 n)) d = f i.
Proof.
  intros H.
  rewrite (nth_indep _ d (f 0)) by (rewrite length_map, length_seq; exact H).
  rewrite map_nth, seq_nth by exact H.
  reflexivity.
Qed.

Lemma map_nth_seq (A B : Type) (g : A -> B) (d : A) (l : list A) :
  map (fun k => g (nth k l d)) (seq 0 (List.length l)) = map g l.
Proof.
  induction l as [|a l IH]; [reflexivity|].
  simpl. f_equal.
  rewrite <- seq_shift, map_map. exact IH.
Qed.

Lemma lane_indices_axis_len_1 (shp : list nat) (ax k : nat) :
  axis_len shp ax = 1 -> lane_indices shp ax k = [k].
Proof.
  intros H. unfold lane_indices, lane_base. rewrite H, Nat.mod_1_r.
  simpl. f_equal. lia.
Qed.

Section KernelFacts.

Context {DType : Type} {ops : DTypeOps DType}.

Lemma length_lane (shp : list nat) (ax : nat) (data : list DType) (k : nat) :
  List.length (lane shp ax data k) = axis_len shp ax.
Proof.
  unfold lane, lane_indices. rewrite !length_map, length_seq. reflexivity.
Qed.

(** With [left] the reduction ignores the saved output. *)
Lemma fold_left_reduce_left (lg lo : list DType) :
  List.length lg = List.length lo ->
  forall acc,
    fold_left (fun s p => dadd s (Map_reduce mshadow_op_left (fst p) (snd p)))
              (combine lg lo) acc
    = fold_left dadd lg acc.
Proof.
  revert lo. induction lg as [|g lg IH]; intros [|o lo] H acc;
    simpl in *; try discriminate; [reflexivity|].
  apply IH. lia.
Qed.

Lemma lane_reduce_left (lg lo : list DType) :
  List.length lg = List.length lo ->
  lane_reduce mshadow_op_left lg lo = sum_list lg.
Proof.
  intros H. unfold lane_reduce, sum_list.
  apply fold_left_reduce_left. exact H.
Qed.

(** With [mul] the reduction sums the products. *)
Lemma fold_left_map_acc (A : Type) (f : A -> DType) (l : list A) :
  forall acc,
    fold_left (fun s p => dadd s (f p)) l acc = fold_left dadd (map f l) acc.
Proof.
  induction l as [|a l IH]; intros acc; simpl; [reflexivity | apply IH].
Qed.

Lemma lane_reduce_mul (lg lo : list DType) :
  lane_reduce mshadow_op_mul lg lo
  = sum_list (map (fun p => dmul (fst p) (snd p)) (combine lg lo)).
Proof.
  unfold lane_reduce, sum_list. simpl. apply fold_left_map_acc.
Qed.

(** What [SoftmaxGradCompute] returns, element by element. *)
Lemma SoftmaxGradCompute_elements OP1 OP2 attrs (dy y : Tensor DType) ax :
  shape dy = shape y ->
  CheckAxis (axis (parsed attrs)) (List.length (shape dy)) = Some ax ->
  exists dx,
    SoftmaxGradCompute OP1 OP2 attrs dy y = Some dx
    /\ shape dx = shape dy
    /\ List.length (dptr dx) = List.length (dptr dy)
    /\ forall i, i < List.length (dptr dy) ->
         nth i (dptr dx) d0
         = Map_bwd OP2 (nth i (dptr dy) d0) (nth i (dptr y) d0)
             (lane_reduce OP1 (lane (shape dy) ax (dptr dy) i)
                              (lane (shape dy) ax (dptr y) i)).
Proof.
  intros Hs Hax. unfold SoftmaxGradCompute.
  destruct (list_eq_dec Nat.eq_dec (shape dy) (shape y)) as [_|N];
    [|contradiction].
  rewrite Hax. eexists. split; [reflexivity|]. simpl.
  split; [reflexivity|]. split.
  - unfold SoftmaxGrad. rewrite length_map, length_seq. reflexivity.
  - intros i Hi. unfold SoftmaxGrad.
    rewrite nth_map_seq by exact Hi. reflexivity.
Qed.

(** Along an axis of length 1 every slice is a single element, which is
    its own maximum. *)
Lemma Softmax_axis_len_1 OP (shp : list nat) (ax : nat) (data : list DType) :
  axis_len shp ax = 1 ->
  Softmax OP shp ax data
  = map (fun x => Map_fwd OP (dsub x x) (dadd d0 (dexp (dsub x x)))) data.
Proof.
  intros H. unfold Softmax.
  rewrite <- (map_nth_seq
                (fun x => Map_fwd OP (dsub x x) (dadd d0 (dexp (dsub x x))))
                d0 data).
  apply map_ext. intros k.
  unfold lane. rewrite lane_indices_axis_len_1 by exact H.
  reflexivity.
Qed.

End KernelFacts.

(** ** The degenerate axis, in real arithmetic *)

Lemma softmax_single_element (x : R) :
  Map_fwd softmax_fwd (dsub x x) (dadd d0 (dexp (dsub x x))) = 1%R.
Proof.
  simpl. replace (x - x)%R with 0%R by lra.
  rewrite exp_0. lra.
Qed.

Lemma log_softmax_single_element (x : R) :
  Map_fwd log_softmax_fwd (dsub x x) (dadd d0 (dexp (dsub x x))) = 0%R.
Proof.
  simpl. replace (x - x)%R with 0%R by lra.
  rewrite exp_0. replace (0 + 1)%R with 1%R by lra.
  rewrite ln_1. lra.
Qed.

(** In real arithmetic: for a tensor whose normalised axis has length
    1, the
    kernel registered for [softmax] returns 1 at every element and the
    kernel registered for [log_softmax] returns 0 at every element; the
    shape is kept. *)
Theorem degenerate_axis_outputs :
  forall MXNET_USE_MKLDNN attrs (x : Tensor R) ax,
    CheckAxis (axis (parsed attrs)) (List.length (shape x)) = Some ax ->
    axis_len (shape x) ax = 1 ->
    run_FCompute (FCompute_cpu (op_softmax MXNET_USE_MKLDNN)) attrs [x]
      = Some {| shape := shape x; dptr := map (fun _ => 1%R) (dptr x) |}
    /\ run_FCompute (FCompute_cpu op_log_softmax) attrs [x]
       = Some {| shape := shape x; dptr := map (fun _ => 0%R) (dptr x) |}.
Proof.
  intros M attrs x ax Hax Hlen.
  simpl. unfold SoftmaxCompute. rewrite Hax.
  rewrite !Softmax_axis_len_1 by exact Hlen.
  split; do 2 f_equal; apply map_ext; intros v.
  - apply softmax_single_element.
  - apply log_softmax_single_element.
Qed.

Lemma degenerate_axis_outputs_witness :
  run_FCompute (FCompute_cpu (op_softmax 1)) attrs_last_axis [column]
    = Some {| shape := [2; 1]; dptr := [1%R; 1%R] |}
  /\ run_FCompute (FCompute_cpu op_log_softmax) attrs_last_axis [column]
     = Some {| shape := [2; 1]; dptr := [0%R; 0%R] |}.
Proof.
  exact (@degenerate_axis_outputs 1 attrs_last_axis column 1
           eq_refl eq_refl).
Defined.

(** ** Worked examples *)

(** A training call on a supported layout goes through the fallback,
    which converts the input held in the accelerated layout first. *)
Example training_call_falls_back :
  SoftmaxComputeExCPU supports_all attrs_axis1 training
                      [x_mkldnn] [kWriteTo] [y_out]
  = Some [ EvLayoutConversion x_mkldnn;
           EvFCompute (SoftmaxCompute_cpu softmax_fwd) attrs_axis1 training
                      [Reorder2Default x_mkldnn] [kWriteTo] [y_out] ].
Proof. reflexivity. Qed.

(** An inference call with a non-negative axis runs the primitive. *)
Example inference_call_accelerated :
  option_map selected
    (SoftmaxComputeExCPU supports_all attrs_axis1 inference
                         [x_mkldnn] [kWriteTo] [y_out])
  = Some Accelerated.
Proof. reflexivity. Qed.

(** The backward node of [softmax_node] reads the gradient and output 0
    of the node itself, not the node's input. *)
Example softmax_node_backward :
  let ograd := {| entry_node := 9; entry_index := 0 |} in
  let b := apply_FGradient (ElemwiseGradUseOut "_backward_softmax") 10
                           softmax_node [ograd] in
  node_inputs b = [ograd; {| entry_node := 8; entry_index := 0 |}]
  /\ reads_entry b {| entry_node := 7; entry_index := 0 |} = false.
Proof. split; reflexivity. Qed.

(** Slices of a 2x3x4 tensor that holds its own flat indices. *)
Example lane_2x3x4_axis1 :
  lane [2; 3; 4] 1 (seq 0 24) 17 = [13; 17; 21].
Proof. reflexivity. Qed.

Example lane_2x3x4_axis2 :
  lane [2; 3; 4] 2 (seq 0 24) 17 = [16; 17; 18; 19].
Proof. reflexivity. Qed.

Example lane_2x3x4_axis0 :
  lane [2; 3; 4] 0 (seq 0 24) 17 = [5; 17].
Proof. reflexivity. Qed.

Lemma Rltb_irrefl (x : R) : Rltb x x = false.
Proof.
  unfold Rltb. destruct (Rlt_dec x x) as [H|H]; [lra | reflexivity].
Qed.

Ltac run_softmax_on_ones :=
  unfold Softmax; cbn [List.length seq map]; unfold lane;
  cbv [lane_indices lane_base axis_len axis_stride Size skipn fold_right
       nth seq map Nat.mul Nat.add Nat.sub Nat.div Nat.modulo Nat.divmod
       fst snd];
  cbv [lane_max lane_sum_exp fold_left Map_fwd];
  simpl dlt; rewrite !Rltb_irrefl; simpl;
  replace (1 - 1)%R with 0%R by lra; rewrite exp_0.

(** The example of the operator's description: a 2x3 tensor of ones. *)
Example softmax_ones_axis0 :
  Softmax softmax_fwd [2; 3] 0 [1; 1; 1; 1; 1; 1]%R
  = [/ 2; / 2; / 2; / 2; / 2; / 2]%R.
Proof. run_softmax_on_ones. repeat f_equal; lra. Qed.

Example softmax_ones_axis1 :
  Softmax softmax_fwd [2; 3] 1 [1; 1; 1; 1; 1; 1]%R
  = [/ 3; / 3; / 3; / 3; / 3; / 3]%R.
Proof. run_softmax_on_ones. repeat f_equal; lra. Qed.

(* ================================================================= *)
(** * Further properties *)

(** ** The dispatcher: bounds, preconditions of the primitive, one
    computation per call *)

Section DispatcherMore.

Variable SupportMKLDNN : NDArray -> bool.

(** Every successful call, for argument vectors of any length. *)
Lemma SoftmaxComputeExCPU_inv attrs ctx inputs req outputs tr :
  SoftmaxComputeExCPU SupportMKLDNN attrs ctx inputs req outputs = Some tr ->
  exists in0,
    nth_error inputs 0 = Some in0
    /\ ((SupportMKLDNN in0 && negb (is_train ctx)
           && (axis (parsed attrs) >=? 0)%Z = true
         /\ exists req0 out0,
              nth_error req 0 = Some req0
              /\ nth_error outputs 0 = Some out0
              /\ tr = [ EvOpCheckInit false (List.length outputs)
                                      inputs outputs;
                        EvMKLDNNSoftmaxForward attrs ctx in0 req0 out0;
                        EvOpCheckRun (SoftmaxCompute_cpu softmax_fwd)
                                     attrs ctx inputs req outputs ])
        \/ (SupportMKLDNN in0 && negb (is_train ctx)
              && (axis (parsed attrs) >=? 0)%Z = false
            /\ tr = FallBackCompute (SoftmaxCompute_cpu softmax_fwd)
                                    attrs ctx inputs req outputs)).
Proof.
  unfold SoftmaxComputeExCPU.
  destruct (nth_error inputs 0) as [in0|]; [|discriminate].
  intros H. exists in0. split; [reflexivity|].
  destruct (SupportMKLDNN in0 && negb (is_train ctx)
            && (axis (parsed attrs) >=? 0)%Z).
  - left. split; [reflexivity|].
    destruct (nth_error req 0) as [req0|]; [|discriminate].
    destruct (nth_error outputs 0) as [out0|]; [|discriminate].
    exists req0, out0. injection H as <-. auto.
  - right. split; [reflexivity|]. injection H as <-. reflexivity.
Qed.

Lemma nth_error_0_None (A : Type) (l : list A) :
  nth_error l 0 = None <-> l = [].
Proof.
  destruct l; simpl; split; intros H; try reflexivity; discriminate.
Qed.

(** X1.  The call leaves the bounds of its argument vectors exactly
    when [inputs] is empty, or when the guard of line 44 holds for
    [inputs[0]] and [req] or [outputs] is empty.  On the fallback side
    the function indexes neither [req] nor [outputs]. *)
Theorem SoftmaxComputeExCPU_out_of_bounds :
  forall attrs ctx inputs req outputs,
    SoftmaxComputeExCPU SupportMKLDNN attrs ctx inputs req outputs = None
    <-> inputs = []
        \/ (exists in0,
              nth_error inputs 0 = Some in0
              /\ SupportMKLDNN in0 = true /\ is_train ctx = false
              /\ (0 <= axis (parsed attrs))%Z
              /\ (req = [] \/ outputs = [])).
Proof.
  intros attrs ctx inputs req outputs. unfold SoftmaxComputeExCPU.
  destruct inputs as [|in0 ins]; simpl.
  - split; auto.
  - destruct (SupportMKLDNN in0 && negb (is_train ctx)
              && (axis (parsed attrs) >=? 0)%Z) eqn:G.
    + apply guard_true_iff in G. destruct G as [S [T A]].
      destruct req as [|r rs]; simpl.
      * split; [|reflexivity]. intros _. right. exists in0. auto 6.
      * destruct outputs as [|o os]; simpl.
        -- split; [|reflexivity]. intros _. right. exists in0. auto 6.
        -- split; [discriminate|].
           intros [E | [x [_ [_ [_ [_ [E | E]]]]]]]; discriminate.
    + split; [discriminate|].
      intros [E | [x [Ex [S [T [A _]]]]]]; [discriminate|].
      injection Ex as <-.
      assert (H : SupportMKLDNN in0 && negb (is_train ctx)
                  && (axis (parsed attrs) >=? 0)%Z = true)
        by (apply guard_true_iff; auto).
      congruence.
Qed.

(** X2.  Whenever the MKLDNN primitive appears in the trace of a call,
    it was called with the call's own configuration and context, on
    [inputs[0]], [req[0]] and [outputs[0]], and the preconditions the
    comment of lines 42-43 names hold: not a training call, a
    non-negative axis, an input the backend supports. *)
Theorem primitive_called_within_preconditions :
  forall attrs ctx inputs req outputs tr a c i r o,
    SoftmaxComputeExCPU SupportMKLDNN attrs ctx inputs req outputs = Some tr ->
    In (EvMKLDNNSoftmaxForward a c i r o) tr ->
    a = attrs /\ c = ctx
    /\ nth_error inputs 0 = Some i
    /\ nth_error req 0 = Some r
    /\ nth_error outputs 0 = Some o
    /\ SupportMKLDNN i = true
    /\ is_train c = false
    /\ (0 <= axis (parsed a))%Z.
Proof.
  intros attrs ctx inputs req outputs tr a c i r o H Hin.
  apply SoftmaxComputeExCPU_inv in H.
  destruct H as [in0 [E0 [[G [req0 [out0 [Er [Eo ->]]]]] | [G ->]]]].
  - apply guard_true_iff in G. destruct G as [S [T A]].
    simpl in Hin.
    destruct Hin as [E | [E | [E | []]]]; try discriminate.
    injection E as <- <- <- <- <-. auto 10.
  - exfalso. unfold FallBackCompute in Hin.
    apply in_app_or in Hin. destruct Hin as [Hin | [E | []]].
    + apply in_map_iff in Hin. destruct Hin as [x [E _]]. discriminate.
    + discriminate.
Qed.

Lemma conversions_compute_nothing (l : list NDArray) (rest : list Event) :
  filter is_compute_event (map EvLayoutConversion l ++ rest)
  = filter is_compute_event rest.
Proof.
  induction l as [|a l IH]; simpl; [reflexivity | exact IH].
Qed.

(** X3.  Every successful call computes the softmax exactly once:
    its trace holds exactly one event that is the MKLDNN primitive or
    the generic kernel.  When it is the primitive, the trace holds no
    event of the fallback (the [return] of line 49): no input is
    converted. *)
Theorem one_computation_per_call :
  forall attrs ctx inputs req outputs tr,
    SoftmaxComputeExCPU SupportMKLDNN attrs ctx inputs req outputs = Some tr ->
    List.length (filter is_compute_event tr) = 1
    /\ (selected tr = Accelerated -> existsb is_fallback_event tr = false)
    /\ (selected tr = Generic -> existsb is_accelerated_call tr = false).
Proof.
  intros attrs ctx inputs req outputs tr H.
  apply SoftmaxComputeExCPU_inv in H.
  destruct H as [in0 [E0 [[G [req0 [out0 [Er [Eo ->]]]]] | [G ->]]]].
  - repeat split; try reflexivity. discriminate.
  - unfold FallBackCompute. rewrite conversions_compute_nothing.
    split; [reflexivity|]. split.
    + fold (FallBackCompute (SoftmaxCompute_cpu softmax_fwd) attrs ctx
                            inputs req outputs).
      rewrite selected_FallBackCompute. discriminate.
    + intros _. rewrite existsb_app, no_accelerated_call_in_conversions.
      reflexivity.
Qed.

End DispatcherMore.

Lemma primitive_called_within_preconditions_witness :
  nth_error [x_mkldnn; x_dense] 0 = Some x_mkldnn
  /\ is_train inference = false
  /\ (0 <= axis (parsed attrs_axis1))%Z.
Proof.
  destruct (@primitive_called_within_preconditions supports_all
              attrs_axis1 inference [x_mkldnn; x_dense]
              [kWriteTo; kAddTo] [y_out] _
              attrs_axis1 inference x_mkldnn kWriteTo y_out
              eq_refl (or_intror (or_introl eq_refl)))
    as [_ [_ [I [_ [_ [_ [T A]]]]]]].
  split; [exact I|]. split; [exact T | exact A].
Defined.

Lemma one_computation_per_call_witness :
  List.length
    (filter is_compute_event
       (FallBackCompute (SoftmaxCompute_cpu softmax_fwd) attrs_last_axis
          training [x_mkldnn; x_dense; x_mkldnn] [kWriteTo] [y_out]))
  = 1.
Proof.
  exact (proj1 (@one_computation_per_call supports_all attrs_last_axis
                  training [x_mkldnn; x_dense; x_mkldnn] [kWriteTo] [y_out]
                  _ eq_refl)).
Defined.

(** ** Storage-type inference: what is written, what fails, which mode *)

Section StorageMore.

Variable MXNET_USE_MKLDNN : Z.
Variable cpu_kDevMask : Z.
Variable storage_type_assign :
  list Z -> Z -> DispatchMode -> DispatchMode ->
  (list Z * DispatchMode) * Outcome bool.

(** The three ways a call can go. *)
Lemma SoftmaxStorageType_cases attrs dev_mask st :
  (List.length (in_attrs st) <> 1
   /\ SoftmaxStorageType MXNET_USE_MKLDNN cpu_kDevMask storage_type_assign
        attrs dev_mask st
      = (st, Thrown (CheckEqFailed (List.length (in_attrs st)) 1)))
  \/ (List.length (in_attrs st) = 1 /\ List.length (out_attrs st) <> 1
      /\ SoftmaxStorageType MXNET_USE_MKLDNN cpu_kDevMask storage_type_assign
           attrs dev_mask st
         = (st, Thrown (CheckEqFailed (List.length (out_attrs st)) 1)))
  \/ (exists i outs mode r,
        in_attrs st = [i] /\ List.length (out_attrs st) = 1
        /\ storage_type_assign (out_attrs st) i (dispatch_mode st)
             (wanted_mode MXNET_USE_MKLDNN cpu_kDevMask dev_mask)
           = ((outs, mode), r)
        /\ SoftmaxStorageType MXNET_USE_MKLDNN cpu_kDevMask
             storage_type_assign attrs dev_mask st
           = ({| dispatch_mode := mode; in_attrs := in_attrs st;
                 out_attrs := outs |}, r)).
Proof.
  unfold SoftmaxStorageType.
  destruct (List.length (in_attrs st) =? 1) eqn:Ei; simpl.
  - apply Nat.eqb_eq in Ei.
    destruct (List.length (out_attrs st) =? 1) eqn:Eo; simpl.
    + apply Nat.eqb_eq in Eo. right. right.
      destruct (in_attrs st) as [|i [|i' l]] eqn:Ein; try discriminate.
      simpl.
      destruct (storage_type_assign (out_attrs st) i (dispatch_mode st)
                  (wanted_mode MXNET_USE_MKLDNN cpu_kDevMask dev_mask))
        as [[outs mode] r] eqn:Ea.
      exists i, outs, mode, r. auto.
    + apply Nat.eqb_neq in Eo. right. left. auto.
  - apply Nat.eqb_neq in Ei. left. auto.
Qed.

(** X4.  The inference never writes the input attributes: whatever the
    counts, the device, and whatever [storage_type_assign] does, the
    input attributes after the call are those before it. *)
Theorem SoftmaxStorageType_keeps_in_attrs :
  forall attrs dev_mask st,
    in_attrs (fst (SoftmaxStorageType MXNET_USE_MKLDNN cpu_kDevMask
                     storage_type_assign attrs dev_mask st))
    = in_attrs st.
Proof.
  intros attrs dev_mask st.
  destruct (SoftmaxStorageType_cases attrs dev_mask st)
    as [[_ E] | [[_ [_ E]] | [i [outs [mode [r [_ [_ [_ E]]]]]]]]];
    rewrite E; reflexivity.
Qed.

(** X5.  The input count is checked first: with a wrong number of input
    attributes the error reports that number, whatever the number of
    output attributes is; the output count is reported only when the
    input count is one. *)
Theorem SoftmaxStorageType_first_check_wins :
  forall attrs dev_mask st e,
    snd (SoftmaxStorageType MXNET_USE_MKLDNN cpu_kDevMask
           storage_type_assign attrs dev_mask st) = Thrown e ->
    (List.length (in_attrs st) <> 1 ->
     e = CheckEqFailed (List.length (in_attrs st)) 1)
    /\ (List.length (in_attrs st) = 1 ->
        List.length (out_attrs st) <> 1 ->
        e = CheckEqFailed (List.length (out_attrs st)) 1).
Proof.
  intros attrs dev_mask st e H.
  destruct (SoftmaxStorageType_cases attrs dev_mask st)
    as [[Ni E] | [[Ei [No E]] | [i [outs [mode [r [Ei [Eo [_ E]]]]]]]]];
    rewrite E in H; simpl in H.
  - injection H as <-. split; [reflexivity | intros; contradiction].
  - injection H as <-. split; [intros; contradiction | reflexivity].
  - split; intros; [rewrite Ei in *; simpl in *|]; contradiction.
Qed.

(** X6.  A call fails for one of two reasons only: a count that is not
    one, or a failure inside [storage_type_assign], called on the output
    attributes with the input's storage type as target.  When the call
    returns, both counts are one and the value returned is the one
    [storage_type_assign] returned. *)
Theorem SoftmaxStorageType_results :
  forall attrs dev_mask st,
    (forall e,
       snd (SoftmaxStorageType MXNET_USE_MKLDNN cpu_kDevMask
              storage_type_assign attrs dev_mask st) = Thrown e ->
       List.length (in_attrs st) <> 1 \/ List.length (out_attrs st) <> 1
       \/ exists i,
            in_attrs st = [i]
            /\ snd (storage_type_assign (out_attrs st) i (dispatch_mode st)
                      (wanted_mode MXNET_USE_MKLDNN cpu_kDevMask dev_mask))
               = Thrown e)
    /\ (forall b,
          snd (SoftmaxStorageType MXNET_USE_MKLDNN cpu_kDevMask
                 storage_type_assign attrs dev_mask st) = Returned b ->
          exists i,
            in_attrs st = [i] /\ List.length (out_attrs st) = 1
            /\ snd (storage_type_assign (out_attrs st) i (dispatch_mode st)
                      (wanted_mode MXNET_USE_MKLDNN cpu_kDevMask dev_mask))
               = Returned b).
Proof.
  intros attrs dev_mask st.
  destruct (SoftmaxStorageType_cases attrs dev_mask st)
    as [[Ni E] | [[Ei [No E]] | [i [outs [mode [r [Ei [Eo [Ea E]]]]]]]]];
    rewrite E; simpl; split; intros x H; try discriminate; auto.
  - right. right. exists i. rewrite Ea. auto.
  - exists i. rewrite Ea. auto.
Qed.

End StorageMore.

(** X7.  The wanted dispatch mode is [kFComputeEx] exactly in an MKLDNN
    build on the CPU device, where [SoftmaxComputeExCPU] is registered
    for [softmax]; in every other case it is [kFCompute].  The inference
    never asks for a function the registration does not provide. *)
Theorem wanted_mode_is_registered :
  forall MXNET_USE_MKLDNN cpu_kDevMask dev_mask,
    (wanted_mode MXNET_USE_MKLDNN cpu_kDevMask dev_mask = kFComputeEx
     /\ MXNET_USE_MKLDNN = 1%Z /\ dev_mask = cpu_kDevMask
     /\ FComputeEx_cpu (op_softmax MXNET_USE_MKLDNN)
        = Some FnSoftmaxComputeExCPU)
    \/ (wanted_mode MXNET_USE_MKLDNN cpu_kDevMask dev_mask = kFCompute
        /\ (MXNET_USE_MKLDNN <> 1%Z \/ dev_mask <> cpu_kDevMask)).
Proof.
  intros M cpu dev. unfold wanted_mode, op_softmax. simpl.
  destruct (M =? 1)%Z eqn:EM.
  - apply Z.eqb_eq in EM.
    destruct (dev =? cpu)%Z eqn:ED.
    + apply Z.eqb_eq in ED. left. auto.
    + apply Z.eqb_neq in ED. right. auto.
  - apply Z.eqb_neq in EM. right. auto.
Qed.

(** X8.  Off the CPU device the inference is the same in every build:
    whether MKLDNN is compiled in makes no difference to the state
    reached or to the result. *)
Theorem SoftmaxStorageType_build_irrelevant_off_cpu :
  forall build1 build2 cpu_kDevMask storage_type_assign attrs dev_mask st,
    dev_mask <> cpu_kDevMask ->
    SoftmaxStorageType build1 cpu_kDevMask storage_type_assign
                       attrs dev_mask st
    = SoftmaxStorageType build2 cpu_kDevMask storage_type_assign
                         attrs dev_mask st.
Proof.
  intros b1 b2 cpu assign attrs dev st H.
  assert (W : forall b, wanted_mode b cpu dev = kFCompute).
  { intros b. unfold wanted_mode.
    apply Z.eqb_neq in H. rewrite H.
    destruct (b =? 1)%Z; reflexivity. }
  unfold SoftmaxStorageType. rewrite !W. reflexivity.
Qed.

Lemma SoftmaxStorageType_first_check_wins_witness :
  snd (SoftmaxStorageType 1 1 assign_always attrs_axis1 1
         {| dispatch_mode := kUndefined; in_attrs := [];
            out_attrs := [0; 0]%Z |})
  = Thrown (CheckEqFailed 0 1)
  /\ CheckEqFailed 0 1
     = CheckEqFailed
         (List.length
            (in_attrs {| dispatch_mode := kUndefined; in_attrs := [];
                         out_attrs := [0; 0]%Z |})) 1.
Proof.
  split; [reflexivity|].
  apply (proj1 (@SoftmaxStorageType_first_check_wins 1 1 assign_always
                  attrs_axis1 1
                  {| dispatch_mode := kUndefined; in_attrs := [];
                     out_attrs := [0; 0]%Z |}
                  (CheckEqFailed 0 1) eq_refl)).
  simpl. discriminate.
Defined.

Lemma SoftmaxStorageType_build_irrelevant_off_cpu_witness :
  SoftmaxStorageType 1 1 assign_always attrs_axis1 2
    {| dispatch_mode := kUndefined; in_attrs := [0%Z];
       out_attrs := [(-1)%Z] |}
  = SoftmaxStorageType 0 1 assign_always attrs_axis1 2
      {| dispatch_mode := kUndefined; in_attrs := [0%Z];
         out_attrs := [(-1)%Z] |}.
Proof.
  apply (@SoftmaxStorageType_build_irrelevant_off_cpu 1 0 1 assign_always
           attrs_axis1 2).
  discriminate.
Defined.

(** ** The registrations as a table *)

Section RegistryMore.

Variable MXNET_USE_MKLDNN : Z.

Lemma in_registry (r : Registration) :
  In r (registry MXNET_USE_MKLDNN)
  <-> r = op_softmax MXNET_USE_MKLDNN \/ r = op_backward_softmax
      \/ r = op_log_softmax \/ r = op_backward_log_softmax.
Proof.
  unfold registry. simpl. split.
  - intros [H | [H | [H | [H | []]]]]; auto.
  - intros [H | [H | [H | H]]]; auto.
Qed.

(** X9.  The four operators are registered under pairwise different
    names: looking a name up yields a registration exactly when that
    registration is in the table and carries the name. *)
Theorem find_op_registered :
  forall name r,
    find_op MXNET_USE_MKLDNN name = Some r
    <-> In r (registry MXNET_USE_MKLDNN) /\ reg_name r = name.
Proof.
  intros name r. split.
  - intros H. unfold find_op in H. apply find_some in H.
    destruct H as [Hin Heq]. apply String.eqb_eq in Heq. auto.
  - intros [Hin <-]. apply in_registry in Hin.
    destruct Hin as [-> | [-> | [-> | ->]]]; reflexivity.
Qed.

(** X10.  Of the four operators only the forward [softmax] has an
    accelerated entry point, and only in an MKLDNN build; only it has a
    storage-type inference of its own.  The backward operator a gradient
    functor names is in the table, takes two inputs, has no accelerated
    entry point and no gradient of its own. *)
Theorem only_softmax_is_accelerated :
  forall r,
    In r (registry MXNET_USE_MKLDNN) ->
    (FComputeEx_cpu r <> None
     <-> r = op_softmax MXNET_USE_MKLDNN /\ MXNET_USE_MKLDNN = 1%Z)
    /\ (FInferStorageType r <> None <-> r = op_softmax MXNET_USE_MKLDNN)
    /\ (forall backward_op,
          FGradient r = Some (ElemwiseGradUseOut backward_op) ->
          exists bwd,
            find_op MXNET_USE_MKLDNN backward_op = Some bwd
            /\ reg_macro bwd = MXNET_OPERATOR_REGISTER_BINARY
            /\ FComputeEx_cpu bwd = None
            /\ FGradient bwd = None).
Proof.
  intros r Hin. apply in_registry in Hin.
  assert (Names : forall r', reg_name r' <> "softmax"%string ->
                             r' <> op_softmax MXNET_USE_MKLDNN).
  { intros r' Hn E. apply Hn. rewrite E. reflexivity. }
  destruct Hin as [-> | [-> | [-> | ->]]].
  - split; [|split].
    + unfold op_softmax. simpl.
      destruct (MXNET_USE_MKLDNN =? 1)%Z eqn:E.
      * apply Z.eqb_eq in E. split; [auto | discriminate].
      * apply Z.eqb_neq in E. split; [intros H; contradiction H; reflexivity|].
        intros [_ H]. contradiction.
    + split; [auto | discriminate].
    + intros b H. injection H as <-.
      exists op_backward_softmax. repeat split.
  - split; [|split].
    + split; [intros H; contradiction H; reflexivity|].
      intros [H _]. exfalso. revert H. apply Names. discriminate.
    + split; [intros H; contradiction H; reflexivity|].
      intros H. exfalso. revert H. apply Names. discriminate.
    + intros b H. discriminate H.
  - split; [|split].
    + split; [intros H; contradiction H; reflexivity|].
      intros [H _]. exfalso. revert H. apply Names. discriminate.
    + split; [intros H; contradiction H; reflexivity|].
      intros H. exfalso. revert H. apply Names. discriminate.
    + intros b H. injection H as <-.
      exists op_backward_log_softmax. repeat split.
  - split; [|split].
    + split; [intros H; contradiction H; reflexivity|].
      intros [H _]. exfalso. revert H. apply Names. discriminate.
    + split; [intros H; contradiction H; reflexivity|].
      intros H. exfalso. revert H. apply Names. discriminate.
    + intros b H. discriminate H.
Qed.

End RegistryMore.

Lemma only_softmax_is_accelerated_witness :
  FComputeEx_cpu op_log_softmax <> None
  <-> op_log_softmax = op_softmax 1 /\ 1%Z = 1%Z.
Proof.
  apply (@only_softmax_is_accelerated 1 op_log_softmax).
  simpl. auto.
Defined.

(** ** Slices: index arithmetic *)

Lemma Size_cons (a : nat) (s : list nat) : Size (a :: s) = a * Size s.
Proof. reflexivity. Qed.

Lemma Size_split (shp : list nat) (ax : nat) :
  ax < List.length shp ->
  Size shp = Size (firstn ax shp) * (axis_len shp ax * axis_stride shp ax).
Proof.
  unfold axis_len, axis_stride.
  revert ax. induction shp as [|a s IH]; intros ax H; simpl in H; [lia|].
  destruct ax as [|ax].
  - cbn [firstn nth skipn]. rewrite Size_cons.
    change (Size []) with 1. lia.
  - cbn [firstn nth skipn]. rewrite !Size_cons.
    rewrite (IH ax) by lia. cbn [skipn]. lia.
Qed.


Lemma lane_bound_arith (sa M P k j : nat) :
  k < P * (M * sa) -> j < M ->
  (k - ((k / sa) mod M) * sa) + j * sa < P * (M * sa).
Proof.
  intros Hk Hj.
  assert (Hsa : sa <> 0) by (intros ->; lia).
  assert (HM : M <> 0) by lia.
  pose proof (Nat.div_mod_eq k sa) as H1.
  pose proof (Nat.mod_upper_bound k sa Hsa) as Ht.
  pose proof (Nat.div_mod_eq (k / sa) M) as H2.
  pose proof (Nat.mod_upper_bound (k / sa) M HM) as Hr.
  assert (Hq : k / sa < P * M).
  { apply Nat.Div0.div_lt_upper_bound. nia. }
  assert (Ho : (k / sa) / M < P).
  { apply Nat.Div0.div_lt_upper_bound. nia. }
  set (q := k / sa) in *. set (t := k mod sa) in *.
  set (o := q / M) in *. set (r := q mod M) in *.
  assert (Hb : k - r * sa = sa * (M * o) + t).
  { rewrite H1 at 1. rewrite H2 at 1. nia. }
  rewrite Hb.
  assert (M * o + j + 1 <= P * M) by nia.
  nia.
Qed.

Lemma self_arith (sa M k : nat) :
  M <> 0 ->
  (k - ((k / sa) mod M) * sa) + ((k / sa) mod M) * sa = k.
Proof.
  intros HM.
  assert (((k / sa) mod M) * sa <= k); [|lia].
  destruct (Nat.eq_dec sa 0) as [->|Hsa]; [lia|].
  pose proof (Nat.Div0.mod_le (k / sa) M).
  pose proof (Nat.Div0.mul_div_le k sa). nia.
Qed.


Lemma lane_indices_bound (shp : list nat) (ax k i : nat) :
  ax < List.length shp -> k < Size shp ->
  In i (lane_indices shp ax k) -> i < Size shp.
Proof.
  intros Hax Hk Hi. unfold lane_indices in Hi.
  apply in_map_iff in Hi. destruct Hi as [j [<- Hj]].
  apply in_seq in Hj. unfold lane_base.
  rewrite (@Size_split shp ax Hax) in *.
  apply lane_bound_arith; [assumption | lia].
Qed.

Lemma self_in_lane (shp : list nat) (ax k : nat) :
  axis_len shp ax <> 0 -> In k (lane_indices shp ax k).
Proof.
  intros HM. unfold lane_indices. apply in_map_iff.
  exists ((k / axis_stride shp ax) mod axis_len shp ax). split.
  - unfold lane_base. apply self_arith. assumption.
  - apply in_seq. split; [lia|]. simpl.
    apply Nat.mod_upper_bound. assumption.
Qed.

Lemma stride_nonzero (shp : list nat) (ax k : nat) :
  ax < List.length shp -> k < Size shp ->
  axis_stride shp ax <> 0 /\ axis_len shp ax <> 0.
Proof.
  intros Hax Hk. rewrite (@Size_split shp ax Hax) in Hk.
  split; intros E; rewrite E in Hk; lia.
Qed.

(** ** The kernels against the operator descriptions (lines 77-97,
    117-132), in real arithmetic *)

Lemma fold_left_Rplus_acc (l : list R) (acc : R) :
  fold_left Rplus l acc = (acc + fold_left Rplus l 0)%R.
Proof.
  revert acc. induction l as [|a l IH]; intros acc; simpl; [lra|].
  rewrite (IH (acc + a)%R), (IH (0 + a)%R). lra.
Qed.

Lemma sum_list_R_nil : sum_list (@nil R) = 0%R.
Proof. reflexivity. Qed.

Lemma sum_list_R_cons (a : R) (l : list R) :
  sum_list (a :: l) = (a + sum_list l)%R.
Proof.
  unfold sum_list. simpl. rewrite fold_left_Rplus_acc. lra.
Qed.


Lemma sum_list_pos (l : list R) :
  l <> [] -> Forall (fun v => 0 < v)%R l -> (0 < sum_list l)%R.
Proof.
  intros Hne Hall. induction Hall as [|a l Ha Hl IH]; [contradiction|].
  rewrite sum_list_R_cons.
  destruct l as [|b l].
  - rewrite sum_list_R_nil. lra.
  - assert (0 < sum_list (b :: l))%R by (apply IH; discriminate). lra.
Qed.

Lemma sum_list_nonneg (l : list R) :
  Forall (fun v => 0 < v)%R l -> (0 <= sum_list l)%R.
Proof.
  intros Hall. induction Hall as [|a l Ha Hl IH].
  - rewrite sum_list_R_nil. lra.
  - rewrite sum_list_R_cons. lra.
Qed.

Lemma sum_list_ge_element (l : list R) (x : R) :
  Forall (fun v => 0 < v)%R l -> In x l -> (x <= sum_list l)%R.
Proof.
  intros Hall. induction Hall as [|a l Ha Hl IH]; intros Hin; [contradiction|].
  rewrite sum_list_R_cons. pose proof (sum_list_nonneg Hl).
  destruct Hin as [-> | Hin]; [lra|].
  specialize (IH Hin). lra.
Qed.

Lemma lane_sum_exp_as_sum (l : list R) (m : R) :
  lane_sum_exp l m = sum_list (map (fun v => exp (v - m)) l).
Proof.
  unfold lane_sum_exp, sum_list.
  exact (fold_left_map_acc (fun v : R => exp (v - m)) l 0%R).
Qed.

Lemma shifted_exps_positive (l : list R) (m : R) :
  Forall (fun v => 0 < v)%R (map (fun v => exp (v - m)) l).
Proof.
  apply Forall_forall. intros y Hy. apply in_map_iff in Hy.
  destruct Hy as [v [<- _]]. apply exp_pos.
Qed.

Lemma lane_sum_exp_pos (l : list R) (m : R) :
  l <> [] -> (0 < lane_sum_exp l m)%R.
Proof.
  intros Hne. rewrite lane_sum_exp_as_sum.
  apply sum_list_pos; [|apply shifted_exps_positive].
  destruct l; [contradiction | discriminate].
Qed.


Lemma lane_nonempty (shp : list nat) (ax : nat) (data : list R) (k : nat) :
  axis_len shp ax <> 0 -> lane shp ax data k <> [].
Proof.
  intros H E. apply (f_equal (@List.length R)) in E.
  rewrite length_lane in E. simpl in E. contradiction.
Qed.

Lemma Softmax_element OP (shp : list nat) (ax : nat) (data : list R) (k : nat) :
  k < List.length data ->
  nth k (Softmax OP shp ax data) 0%R
  = Map_fwd OP (nth k data 0 - lane_max (lane shp ax data k))%R
               (lane_sum_exp (lane shp ax data k)
                             (lane_max (lane shp ax data k))).
Proof.
  intros Hk. unfold Softmax.
  rewrite (nth_map_seq _ 0%R Hk). reflexivity.
Qed.

Lemma CheckAxis_range (a : Z) (rank ax : nat) :
  CheckAxis a rank = Some ax -> ax < rank.
Proof.
  unfold CheckAxis.
  destruct (a <? 0)%Z;
    match goal with
    | |- context [(?u && ?v)%bool] =>
      destruct u eqn:E1; destruct v eqn:E2; simpl; try discriminate
    end;
    intros H; injection H as <-;
    apply Z.leb_le in E1; apply Z.ltb_lt in E2; lia.
Qed.


Lemma lane_max_repeat (c : R) (n : nat) : lane_max (repeat c (S n)) = c.
Proof.
  simpl. induction n as [|n IH]; simpl; [reflexivity|].
  rewrite Rltb_irrefl. exact IH.
Qed.

Lemma sum_list_repeat (v : R) (n : nat) :
  sum_list (repeat v n) = (INR n * v)%R.
Proof.
  induction n as [|n IH].
  - simpl. rewrite sum_list_R_nil. lra.
  - change (repeat v (S n)) with (v :: repeat v n).
    rewrite sum_list_R_cons, IH, S_INR. lra.
Qed.

Lemma lane_of_constant (shp : list nat) (ax k : nat) (c : R) :
  ax < List.length shp -> k < Size shp ->
  lane shp ax (repeat c (Size shp)) k = repeat c (axis_len shp ax).
Proof.
  intros Hax Hk. unfold lane.
  rewrite (map_ext_in _ (fun _ => c)).
  - rewrite map_const. unfold lane_indices.
    rewrite length_map, length_seq. reflexivity.
  - intros i Hi. apply nth_repeat_lt.
    apply (@lane_indices_bound shp ax k i Hax Hk Hi).
Qed.

Section DescriptionFacts.

Variable MXNET_USE_MKLDNN : Z.


(** X13.  The sentence of the description of [log_softmax] (line 118),
    "equivalent to computing softmax followed by log": along a non-empty
    axis every element of the output of the kernel registered for
    [log_softmax] is the logarithm of the element the kernel registered
    for [softmax] returns.  (Kernels as modelled above, real
    arithmetic.) *)
Theorem log_softmax_is_log_of_softmax :
  forall attrs (x : Tensor R) ax k,
    CheckAxis (axis (parsed attrs)) (List.length (shape x)) = Some ax ->
    axis_len (shape x) ax <> 0 ->
    k < List.length (dptr x) ->
    exists ys yl,
      run_FCompute (FCompute_cpu (op_softmax MXNET_USE_MKLDNN)) attrs [x]
        = Some ys
      /\ run_FCompute (FCompute_cpu op_log_softmax) attrs [x] = Some yl
      /\ nth k (dptr yl) 0%R = ln (nth k (dptr ys) 0%R).
Proof.
  intros attrs x ax k Hax HM Hk.
  simpl. unfold SoftmaxCompute. rewrite Hax.
  do 2 eexists. split; [reflexivity|]. split; [reflexivity|]. simpl.
  rewrite !Softmax_element by exact Hk.
  set (l := lane (shape x) ax (dptr x) k).
  assert (Hs : (0 < lane_sum_exp l (lane_max l))%R).
  { apply lane_sum_exp_pos. apply lane_nonempty. exact HM. }
  simpl. unfold Rdiv.
  rewrite ln_mult by (try apply exp_pos; apply Rinv_0_lt_compat; exact Hs).
  rewrite ln_exp, ln_Rinv by exact Hs. lra.
Qed.

(** X14.  The range the description gives (line 79): along a
    non-empty axis every output element of [softmax] is positive and at
    most 1 (1 is reached on an axis of length 1).  (Kernel as modelled
    above, real arithmetic.) *)
Theorem softmax_output_range :
  forall attrs (x : Tensor R) ax k,
    CheckAxis (axis (parsed attrs)) (List.length (shape x)) = Some ax ->
    axis_len (shape x) ax <> 0 ->
    k < List.length (dptr x) ->
    exists y,
      run_FCompute (FCompute_cpu (op_softmax MXNET_USE_MKLDNN)) attrs [x]
        = Some y
      /\ (0 < nth k (dptr y) 0 <= 1)%R.
Proof.
  intros attrs x ax k Hax HM Hk.
  simpl. unfold SoftmaxCompute. rewrite Hax.
  eexists. split; [reflexivity|]. simpl.
  rewrite Softmax_element by exact Hk.
  set (l := lane (shape x) ax (dptr x) k).
  set (m := lane_max l).
  assert (Hs : (0 < lane_sum_exp l m)%R).
  { apply lane_sum_exp_pos. apply lane_nonempty. exact HM. }
  assert (Hle : (exp (nth k (dptr x) 0 - m) <= lane_sum_exp l m)%R).
  { rewrite lane_sum_exp_as_sum.
    apply sum_list_ge_element; [apply shifted_exps_positive|].
    apply (in_map (fun v => exp (v - m))).
    unfold l, lane. apply in_map_iff. exists k.
    split; [reflexivity | apply self_in_lane; exact HM]. }
  pose proof (exp_pos (nth k (dptr x) 0%R - m)) as He.
  simpl. split.
  - apply Rdiv_lt_0_compat; assumption.
  - apply Rmult_le_reg_r with (lane_sum_exp l m); [exact Hs|].
    unfold Rdiv. rewrite Rmult_assoc, Rinv_l by lra. lra.
Qed.


(** X16.  The example of the description (lines 88-95) in general: on
    a tensor that holds one value everywhere, [softmax] along an axis of
    length [M] returns [1 / M] everywhere and [log_softmax] returns
    [- ln M] everywhere, for every shape and every axis in range.
    (Kernels as modelled above, real arithmetic.) *)
Theorem softmax_of_constant_tensor :
  forall attrs (x : Tensor R) ax c,
    CheckAxis (axis (parsed attrs)) (List.length (shape x)) = Some ax ->
    dptr x = repeat c (Size (shape x)) ->
    run_FCompute (FCompute_cpu (op_softmax MXNET_USE_MKLDNN)) attrs [x]
    = Some {| shape := shape x;
              dptr := repeat (/ INR (axis_len (shape x) ax))%R
                             (Size (shape x)) |}
    /\ run_FCompute (FCompute_cpu op_log_softmax) attrs [x]
       = Some {| shape := shape x;
                 dptr := repeat (- ln (INR (axis_len (shape x) ax)))%R
                                (Size (shape x)) |}.
Proof.
  intros attrs x ax c Hax Hd.
  pose proof (@CheckAxis_range _ _ _ Hax) as Hr.
  assert (Hel : forall OP k, k < Size (shape x) ->
            exists n, axis_len (shape x) ax = S n
            /\ Map_fwd OP
                 (dsub (nth k (repeat c (Size (shape x))) d0)
                    (lane_max (lane (shape x) ax
                                 (repeat c (Size (shape x))) k)))
                 (lane_sum_exp
                    (lane (shape x) ax (repeat c (Size (shape x))) k)
                    (lane_max (lane (shape x) ax
                                 (repeat c (Size (shape x))) k)))
               = Map_fwd OP 0%R (INR (S n))).
  { intros OP k HkS.
    destruct (@stride_nonzero (shape x) ax k Hr HkS) as [_ HM].
    rewrite (@lane_of_constant (shape x) ax k c Hr HkS).
    rewrite nth_repeat_lt by exact HkS.
    destruct (axis_len (shape x) ax) as [|n] eqn:EM; [contradiction|].
    exists n. split; [reflexivity|].
    rewrite lane_max_repeat, lane_sum_exp_as_sum.
    rewrite map_repeat, sum_list_repeat.
    cbn [dsub R_ops].
    replace (c - c)%R with 0%R by lra. rewrite exp_0.
    f_equal. lra. }
  simpl. unfold SoftmaxCompute. rewrite Hax.
  split; do 2 f_equal; unfold Softmax; rewrite Hd, repeat_length.
  - rewrite (map_ext_in _ (fun _ => (/ INR (axis_len (shape x) ax))%R)).
    + rewrite map_const, length_seq. reflexivity.
    + intros k Hk. apply in_seq in Hk.
      destruct (Hel softmax_fwd k) as [n [EM E]]; [lia|].
      cbv zeta. rewrite E, EM.
      unfold Map_fwd. cbn [ddiv dexp R_ops]. rewrite exp_0.
      assert (0 < INR (S n))%R by (apply lt_0_INR; lia).
      field. lra.
  - rewrite (map_ext_in _
               (fun _ => (- ln (INR (axis_len (shape x) ax)))%R)).
    + rewrite map_const, length_seq. reflexivity.
    + intros k Hk. apply in_seq in Hk.
      destruct (Hel log_softmax_fwd k) as [n [EM E]]; [lia|].
      cbv zeta. rewrite E, EM.
      unfold Map_fwd. cbn [dsub dlog R_ops]. lra.
Qed.

End DescriptionFacts.


Lemma log_softmax_is_log_of_softmax_witness :
  exists ys yl,
    run_FCompute (FCompute_cpu (op_softmax 1)) attrs_last_axis [column]
      = Some ys
    /\ run_FCompute (FCompute_cpu op_log_softmax) attrs_last_axis [column]
       = Some yl
    /\ nth 1 (dptr yl) 0%R = ln (nth 1 (dptr ys) 0%R).
Proof.
  apply (@log_softmax_is_log_of_softmax 1 attrs_last_axis column 1 1).
  - reflexivity.
  - simpl. discriminate.
  - simpl. lia.
Defined.

Lemma softmax_output_range_witness :
  exists y,
    run_FCompute (FCompute_cpu (op_softmax 1)) attrs_axis1 [grad_2x2] = Some y
    /\ (0 < nth 3 (dptr y) 0 <= 1)%R.
Proof.
  apply (@softmax_output_range 1 attrs_axis1 grad_2x2 1 3).
  - reflexivity.
  - simpl. discriminate.
  - simpl. lia.
Defined.


Lemma softmax_of_constant_tensor_witness :
  run_FCompute (FCompute_cpu (op_softmax 1)) attrs_axis0 [ones_2x3]
  = Some {| shape := [2; 3]; dptr := repeat (/ INR 2)%R 6 |}
  /\ run_FCompute (FCompute_cpu (op_softmax 1)) attrs_last_axis [ones_2x3]
     = Some {| shape := [2; 3]; dptr := repeat (/ INR 3)%R 6 |}.
Proof.
  split.
  - exact (proj1 (@softmax_of_constant_tensor 1 attrs_axis0 ones_2x3 0 1%R
                    eq_refl eq_refl)).
  - exact (proj1 (@softmax_of_constant_tensor 1 attrs_last_axis ones_2x3 1
                    1%R eq_refl eq_refl)).
Defined.

(** ** The fallback on inputs that are already dense *)

Lemma to_default_of_dense (inputs : list NDArray) :
  Forall (fun a => IsMKLDNNData a = false) inputs ->
  filter IsMKLDNNData inputs = [] /\ map to_default inputs = inputs.
Proof.
  intros H. induction H as [|a l Ha Hl [IHf IHm]]; [split; reflexivity|].
  simpl. unfold to_default at 1. rewrite Ha, IHf, IHm. split; reflexivity.
Qed.

(** X11.  A call that takes the generic path on inputs none of which
    is held in the accelerated layout makes no copy: its trace is the
    single call of the generic softmax kernel, on the very arrays it was
    given.  (The fallback's conversion is the modelled one.) *)
Theorem fallback_on_dense_inputs_copies_nothing :
  forall SupportMKLDNN attrs ctx inputs req outputs tr,
    SoftmaxComputeExCPU SupportMKLDNN attrs ctx inputs req outputs = Some tr ->
    selected tr = Generic ->
    Forall (fun a => IsMKLDNNData a = false) inputs ->
    tr = [EvFCompute (SoftmaxCompute_cpu softmax_fwd) attrs ctx
                     inputs req outputs].
Proof.
  intros Support attrs ctx inputs req outputs tr H Hsel Hdense.
  apply SoftmaxComputeExCPU_inv in H.
  destruct H as [in0 [E0 [[G [req0 [out0 [Er [Eo ->]]]]] | [G ->]]]].
  - discriminate Hsel.
  - unfold FallBackCompute.
    destruct (to_default_of_dense Hdense) as [-> ->]. reflexivity.
Qed.

Lemma fallback_on_dense_inputs_copies_nothing_witness :
  FallBackCompute (SoftmaxCompute_cpu softmax_fwd) attrs_axis1 training
                  [x_dense] [kWriteTo] [y_out]
  = [EvFCompute (SoftmaxCompute_cpu softmax_fwd) attrs_axis1 training
                [x_dense] [kWriteTo] [y_out]].
Proof.
  apply (@fallback_on_dense_inputs_copies_nothing supports_all attrs_axis1
           training [x_dense] [kWriteTo] [y_out]).
  - reflexivity.
  - reflexivity.
  - repeat constructor.
Defined.

(* ================================================================= *)
(** * The backward kernels along the axis *)

(** ** The kernel's indices are the slice *)

Lemma lane_base_eq (sa M k : nat) :
  sa <> 0 -> M <> 0 ->
  k - ((k / sa) mod M) * sa = (M * sa) * (k / (M * sa)) + k mod sa.
Proof.
  intros Hsa HM.
  pose proof (Nat.div_mod_eq k sa) as H1.
  pose proof (Nat.div_mod_eq (k / sa) M) as H2.
  assert (E : k / (M * sa) = k / sa / M).
  { rewrite (Nat.mul_comm M sa). symmetry. apply Nat.Div0.div_div. }
  rewrite E.
  set (q := k / sa) in *. set (t := k mod sa) in *.
  set (o := q / M) in *. set (r := q mod M) in *.
  rewrite H1 at 1. rewrite H2 at 1. nia.
Qed.

Lemma offsets_sorted (base sa s n : nat) :
  sa <> 0 ->
  StronglySorted lt (map (fun t => base + t * sa) (seq s n)).
Proof.
  intros Hsa. revert s. induction n as [|n IH]; intros s; simpl.
  - constructor.
  - constructor; [apply IH|].
    apply Forall_forall. intros y Hy. apply in_map_iff in Hy.
    destruct Hy as [t [<- Ht]]. apply in_seq in Ht. nia.
Qed.

Lemma lane_base_closed (shp : list nat) (ax k : nat) :
  axis_stride shp ax <> 0 -> axis_len shp ax <> 0 ->
  lane_base shp ax k
  = (axis_len shp ax * axis_stride shp ax)
    * (k / (axis_len shp ax * axis_stride shp ax))
    + k mod axis_stride shp ax.
Proof.
  intros Hsa HM. unfold lane_base. apply lane_base_eq; assumption.
Qed.

Lemma lane_indices_slice (shp : list nat) (ax i : nat) :
  ax < List.length shp -> i < Size shp ->
  slice_of shp ax i (lane_indices shp ax i).
Proof.
  intros Hax Hi.
  destruct (@stride_nonzero shp ax i Hax Hi) as [Hsa HM].
  split.
  - unfold lane_indices. apply offsets_sorted. exact Hsa.
  - intros j. split.
    + intros Hj. split; [exact (@lane_indices_bound shp ax i j Hax Hi Hj)|].
      unfold lane_indices in Hj. apply in_map_iff in Hj.
      destruct Hj as [t [<- Ht]]. apply in_seq in Ht.
      rewrite (@lane_base_closed shp ax i Hsa HM).
      set (M := axis_len shp ax) in *. set (sa := axis_stride shp ax) in *.
      pose proof (Nat.mod_upper_bound i sa Hsa) as Hr.
      unfold same_slice. fold M sa. split.
      * apply Nat.div_unique with (t * sa + i mod sa); [nia | lia].
      * apply Nat.mod_unique with (M * (i / (M * sa)) + t); [exact Hr | nia].
    + intros [Hj [E1 E2]].
      pose proof (@self_in_lane shp ax j HM) as Hself.
      unfold lane_indices in *.
      rewrite (@lane_base_closed shp ax i Hsa HM).
      rewrite (@lane_base_closed shp ax j Hsa HM) in Hself.
      rewrite E1, E2. exact Hself.
Qed.

(** A slice is determined by [slice_of]. *)
Lemma sorted_same_members (l1 l2 : list nat) :
  StronglySorted lt l1 -> StronglySorted lt l2 ->
  (forall j, In j l1 <-> In j l2) -> l1 = l2.
Proof.
  intros S1. revert l2. induction S1 as [|a l1 S1 IH F1]; intros l2 S2 H.
  - destruct l2 as [|b l2]; [reflexivity|].
    exfalso. apply (proj2 (H b)). left. reflexivity.
  - destruct S2 as [|b l2 S2 F2].
    + exfalso. apply (proj1 (H a)). left. reflexivity.
    + rewrite Forall_forall in F1, F2.
      assert (a = b).
      { destruct (proj1 (H a) (or_introl eq_refl)) as [E|Ha]; [auto|].
        destruct (proj2 (H b) (or_introl eq_refl)) as [E|Hb]; [auto|].
        specialize (F1 _ Hb). specialize (F2 _ Ha). lia. }
      subst b. f_equal. apply IH; [exact S2|].
      intros j. split; intros Hj.
      * destruct (proj1 (H j) (or_intror Hj)) as [E|Hj']; [|exact Hj'].
        subst j. specialize (F1 _ Hj). lia.
      * destruct (proj2 (H j) (or_intror Hj)) as [E|Hj']; [|exact Hj'].
        subst j. specialize (F2 _ Hj). lia.
Qed.

Lemma slice_of_unique (shp : list nat) (ax i : nat) (l1 l2 : list nat) :
  slice_of shp ax i l1 -> slice_of shp ax i l2 -> l1 = l2.
Proof.
  intros [S1 M1] [S2 M2]. apply sorted_same_members; try assumption.
  intros j. rewrite M1, M2. tauto.
Qed.

(** Slices of a 2x3x4 tensor, by the coordinates. *)
Example slice_2x3x4_axis1 : slice_of [2; 3; 4] 1 17 [13; 17; 21].
Proof.
  change [13; 17; 21] with (lane_indices [2; 3; 4] 1 17).
  apply lane_indices_slice; simpl; lia.
Qed.

(** ** The backward kernels *)

Lemma combine_map_map (A B C : Type) (f : A -> B) (g : A -> C) (l : list A) :
  combine (map f l) (map g l) = map (fun a => (f a, g a)) l.
Proof.
  induction l as [|a l IH]; simpl; [reflexivity | rewrite IH; reflexivity].
Qed.

Section AlongAxis.

Context {DType : Type} {ops : DTypeOps DType}.

Lemma lane_reduce_over_indices OP1 (f g : nat -> DType) (idx : list nat) :
  lane_reduce OP1 (map f idx) (map g idx)
  = sum_list (map (fun j => Map_reduce OP1 (f j) (g j)) idx).
Proof.
  unfold lane_reduce, sum_list.
  rewrite fold_left_map_acc, combine_map_map, map_map. reflexivity.
Qed.

Lemma SoftmaxGradCompute_along_axis OP1 OP2 attrs (dy y : Tensor DType) ax :
  shape dy = shape y ->
  CheckAxis (axis (parsed attrs)) (List.length (shape dy)) = Some ax ->
  well_formed dy ->
  exists dx,
    SoftmaxGradCompute OP1 OP2 attrs dy y = Some dx
    /\ shape dx = shape dy
    /\ List.length (dptr dx) = List.length (dptr dy)
    /\ forall i, i < List.length (dptr dy) ->
         exists idx,
           slice_of (shape dy) ax i idx
           /\ List.length idx = axis_len (shape dy) ax
           /\ nth i (dptr dx) d0
              = Map_bwd OP2 (nth i (dptr dy) d0) (nth i (dptr y) d0)
                  (sum_list
                     (map (fun j => Map_reduce OP1 (nth j (dptr dy) d0)
                                                   (nth j (dptr y) d0))
                          idx)).
Proof.
  intros Hs Hax Hwf.
  destruct (SoftmaxGradCompute_elements OP1 OP2 attrs dy y Hs Hax)
    as [dx [E [Hshape [Hlen Hel]]]].
  exists dx. split; [exact E|]. split; [exact Hshape|].
  split; [exact Hlen|].
  intros i Hi. exists (lane_indices (shape dy) ax i).
  assert (Hr : ax < List.length (shape dy)) by exact (CheckAxis_range _ _ Hax).
  split; [|split].
  - apply lane_indices_slice; [exact Hr|].
    unfold well_formed in Hwf. rewrite <- Hwf. exact Hi.
  - unfold lane_indices. rewrite length_map, length_seq. reflexivity.
  - rewrite (Hel i Hi). unfold lane.
    rewrite lane_reduce_over_indices. reflexivity.
Qed.

(** C4.  For a gradient [dy] and a saved output [y] of one shape, an
    axis in range and a well-formed [dy], the kernel registered for
    [_backward_log_softmax] returns [dx] with
    [dx_i = dy_i - exp(y_i) * sum_j dy_j], where [j] runs, in
    increasing order, over exactly the indices that agree with [i] on
    every coordinate but the one along the axis: the sum of [dy] alone.
    On the same inputs the kernel registered for [_backward_softmax]
    reduces the products [dy_j * y_j] over the same indices. *)
Theorem log_softmax_backward_formula :
  forall attrs (dy y : Tensor DType) ax,
    shape dy = shape y ->
    CheckAxis (axis (parsed attrs)) (List.length (shape dy)) = Some ax ->
    well_formed dy ->
    exists dx dx',
      run_FCompute (FCompute_cpu op_backward_log_softmax) attrs [dy; y]
        = Some dx
      /\ run_FCompute (FCompute_cpu op_backward_softmax) attrs [dy; y]
         = Some dx'
      /\ shape dx = shape dy
      /\ List.length (dptr dx) = List.length (dptr dy)
      /\ forall i, i < List.length (dptr dy) ->
           exists idx,
             slice_of (shape dy) ax i idx
             /\ List.length idx = axis_len (shape dy) ax
             /\ nth i (dptr dx) d0
                = dsub (nth i (dptr dy) d0)
                       (dmul (dexp (nth i (dptr y) d0))
                             (sum_list
                                (map (fun j => nth j (dptr dy) d0) idx)))
             /\ nth i (dptr dx') d0
                = dmul (nth i (dptr y) d0)
                       (dsub (nth i (dptr dy) d0)
                             (sum_list
                                (map (fun j => dmul (nth j (dptr dy) d0)
                                                    (nth j (dptr y) d0))
                                     idx))).
Proof.
  intros attrs dy y ax Hs Hax Hwf.
  destruct (SoftmaxGradCompute_along_axis mshadow_op_left log_softmax_bwd
              attrs y Hs Hax Hwf) as [dx [E [Hshape [Hlen Hel]]]].
  destruct (SoftmaxGradCompute_along_axis mshadow_op_mul softmax_bwd
              attrs y Hs Hax Hwf) as [dx' [E' [_ [_ Hel']]]].
  exists dx, dx'. simpl.
  split; [exact E|]. split; [exact E'|]. split; [exact Hshape|].
  split; [exact Hlen|].
  intros i Hi.
  destruct (Hel i Hi) as [idx [Hslice [Hn Hv]]].
  destruct (Hel' i Hi) as [idx' [Hslice' [_ Hv']]].
  assert (idx' = idx) by (eapply slice_of_unique; eassumption).
  subst idx'. exists idx. auto.
Qed.

(** C5.  For a gradient [dy] and a saved output [y] of one shape, an
    axis in range and a well-formed [dy], the kernel registered for
    [_backward_softmax] returns [dx] with
    [dx_i = y_i * (dy_i - sum_j (dy_j * y_j))], where [j] runs, in
    increasing order, over exactly the indices that agree with [i] on
    every coordinate but the one along the axis; [y], the forward
    output, is the second input of the kernel. *)
Theorem softmax_backward_formula :
  forall attrs (dy y : Tensor DType) ax,
    shape dy = shape y ->
    CheckAxis (axis (parsed attrs)) (List.length (shape dy)) = Some ax ->
    well_formed dy ->
    exists dx,
      run_FCompute (FCompute_cpu op_backward_softmax) attrs [dy; y] = Some dx
      /\ shape dx = shape dy
      /\ List.length (dptr dx) = List.length (dptr dy)
      /\ forall i, i < List.length (dptr dy) ->
           exists idx,
             slice_of (shape dy) ax i idx
             /\ List.length idx = axis_len (shape dy) ax
             /\ nth i (dptr dx) d0
                = dmul (nth i (dptr y) d0)
                       (dsub (nth i (dptr dy) d0)
                             (sum_list
                                (map (fun j => dmul (nth j (dptr dy) d0)
                                                    (nth j (dptr y) d0))
                                     idx))).
Proof.
  intros attrs dy y ax Hs Hax Hwf.
  destruct (SoftmaxGradCompute_along_axis mshadow_op_mul softmax_bwd
              attrs y Hs Hax Hwf) as [dx [E [Hshape [Hlen Hel]]]].
  exists dx. simpl.
  split; [exact E|]. split; [exact Hshape|]. split; [exact Hlen|].
  intros i Hi.
  destruct (Hel i Hi) as [idx [Hslice [Hn Hv]]].
  exists idx. auto.
Qed.

End AlongAxis.

Lemma log_softmax_backward_formula_witness :
  exists dx,
    run_FCompute (FCompute_cpu op_backward_log_softmax) attrs_axis1
                 [grad_2x2; out_2x2] = Some dx
    /\ shape dx = [2; 2].
Proof.
  destruct (@log_softmax_backward_formula R R_ops attrs_axis1
              grad_2x2 out_2x2 1 eq_refl eq_refl eq_refl)
    as [dx [dx' [E [_ [S _]]]]].
  exists dx. split; [exact E | exact S].
Defined.

Lemma softmax_backward_formula_witness :
  exists dx,
    run_FCompute (FCompute_cpu op_backward_softmax) attrs_last_axis
                 [grad_2x2; out_2x2] = Some dx
    /\ shape dx = [2; 2].
Proof.
  destruct (@softmax_backward_formula R R_ops attrs_last_axis
              grad_2x2 out_2x2 1 eq_refl eq_refl eq_refl) as [dx [E [S _]]].
  exists dx. split; [exact E | exact S].
Defined.

(* ================================================================= *)
(** * Arity *)



(* ================================================================= *)
(** * The degenerate axis in floating-point arithmetic *)

Section FloatFacts.

Import Floats.
Import Float64.



(** [x - x] is zero at finite values and NaN at an infinity. *)
Example finite_minus_itself :
  PrimFloat.sub 3.5%float 3.5%float = zero
  /\ PrimFloat.sub 1024%float 1024%float = zero
  /\ PrimFloat.sub pos_infinity pos_infinity = nan.
Proof. repeat split; reflexivity. Qed.

Variables expf logf : float -> float.



End FloatFacts.

Section FloatClaims.

Import Floats.
Import Float64.



End FloatClaims.

